(** * wwebjs-api: session supervision and event dispatch

    A shallow embedding of the event-dispatch core of the service
    (utils module, websocket module, session controller, server
    bootstrap) together with the properties of its callback filter,
    webhook dispatcher, readiness wait and WebSocket hub.

    Conventions.  JavaScript functions that mutate module state or talk
    to the outside world are functions on a [world]: the hub map
    [wssMap], the session registry and an append-only [trace] of the
    externally visible effects (HTTP posts, socket operations, log
    lines, HTTP responses).  What the environment answers (the outcome of
    an HTTP post, the close confirmation of an acceptor, the content of a
    polled object, the lateness of a timer) is an explicit argument. *)

From Stdlib Require Import ZArith Ascii String.
From stdpp Require Import base strings gmap list.

Open Scope Z_scope.

(** ** JavaScript values and strings *)

Module Js.

(** The values that flow through the embedded code.  Objects carry
    their properties as an association list, the first binding of a key
    winning. *)
#[warnings="-register-all"]
Inductive value :=
| VUndefined
| VNull
| VBool (b : bool)
| VNum (n : Z)
| VStr (s : string)
| VObj (fields : list (string * value)).

(** [ToBoolean] as used by [if (x)], [x ? a : b] and [x || y]. *)
Definition truthy (v : value) : bool :=
  match v with
  | VUndefined | VNull => false
  | VBool b => b
  | VNum n => negb (Z.eqb n 0)
  | VStr s => negb (String.eqb s "")
  | VObj _ => true
  end.

(** [v !== null && v !== undefined] *)
Definition nonNull (v : value) : bool :=
  match v with
  | VUndefined | VNull => false
  | _ => true
  end.

Fixpoint assoc (key : string) (fields : list (string * value)) : value :=
  match fields with
  | [] => VUndefined
  | (k, v) :: rest => if String.eqb k key then v else assoc key rest
  end.

(** [obj[key]] for a value that is not [null] or [undefined]; only the
    properties stored in the object itself are looked at. *)
Definition get (obj : value) (key : string) : value :=
  match obj with
  | VObj fields => assoc key fields
  | _ => VUndefined
  end.

(** [x || y] *)
Definition or (x y : value) : value := if truthy x then x else y.

(** [s.split(sep)] for a one-character separator. *)
Fixpoint split (sep : ascii) (s : string) : list string :=
  match s with
  | EmptyString => [EmptyString]
  | String c rest =>
      if Ascii.eqb c sep then EmptyString :: split sep rest
      else match split sep rest with
           | hd :: tl => String c hd :: tl
           | [] => [String c EmptyString]
           end
  end.

(** [s.startsWith(p)] *)
Definition startsWith (s p : string) : bool := String.prefix p s.

(** [arr.includes(x)] on an array of strings. *)
Fixpoint includes (arr : list string) (x : string) : bool :=
  match arr with
  | [] => false
  | y :: rest => String.eqb y x || includes rest x
  end.

End Js.

(** ** Promises

    A promise is represented by its fate.  The executor passed to
    [new Promise] runs synchronously; it is represented by the resolver
    calls it makes, in order.  The first call settles the promise and
    later ones are ignored.  An executor that returns without calling a
    resolver, and without handing one to a timer or a callback, leaves a
    promise that nothing can settle any more: its fate is [Pending]. *)

Inductive settlement (A : Type) :=
| Pending
| Fulfilled (v : A)
| Rejected (reason : string).
Arguments Pending {A}.
Arguments Fulfilled {A} v.
Arguments Rejected {A} reason.

Inductive resolver_call (A : Type) :=
| CallResolve (v : A)
| CallReject (reason : string).
Arguments CallResolve {A} v.
Arguments CallReject {A} reason.

Definition newPromise {A} (executor : list (resolver_call A)) : settlement A :=
  match executor with
  | [] => Pending
  | CallResolve v :: _ => Fulfilled v
  | CallReject r :: _ => Rejected r
  end.

Definition settled {A} (p : settlement A) : bool :=
  match p with
  | Pending => false
  | _ => true
  end.

(** ** Process configuration

    The config module is read once at start-up; the embedded code only
    reads these constants. *)

Record config := {
  enableWebSocket : bool;
  disabledCallbacks : list string;
  globalApiKey : string
}.

(** ** The world *)

(** Raw sockets and the WebSocket connections made from them. *)
Definition conn := nat.

(** The body [{ dataType, data, sessionId }] of a webhook post and of a
    WebSocket message (the latter after [JSON.stringify]). *)
Record envelope := {
  env_dataType : string;
  env_data : Js.value;
  env_sessionId : string
}.

(** The bindings object handed to the logger. *)
Record log_ctx := {
  log_sessionId : option string;
  log_dataType : option string;
  log_err : option string;
  log_data : option Js.value
}.

Inductive effect :=
| HttpPost (url : string) (body : envelope) (headers : list (string * string))
| LogDebug (ctx : log_ctx) (msg : string)
| LogError (ctx : log_ctx) (msg : string)
| WsSend (ws : conn) (payload : envelope)
| WsTerminate (ws : conn)
| WssClose (wss : nat)
| WssHandleUpgrade (wss : nat) (socket : conn)
| SocketWrite (socket : conn) (bytes : string)
| SocketDestroy (socket : conn)
| ResStatusJson (status : Z) (success : bool) (message : string)
| PersistIdentity (sessionId : string)
| ClientInitialize (handle : nat).

(** A [WebSocketServer] created with [noServer: true]: its identity and
    its [clients] set in insertion order. *)
Record WebSocketServer := {
  wss_id : nat;
  clients : list conn
}.

(** Modelled from the spec: the [Session] entity of section 3 (the
    registry of the sessions module is not among the sources).  The two
    timestamps, which only the inactivity sweeper reads, are left out. *)
Inductive SessionStatus := STARTING | QR_PENDING | CONNECTED | DISCONNECTED | TERMINATED.

Record Session := {
  id : string;
  status : SessionStatus;
  qrPayload : option string;
  webhookURL : string;
  clientHandle : nat
}.

Record world := {
  sessions : gmap string Session;
  wssMap : gmap string WebSocketServer;
  nextWss : nat;
  nextClient : nat;
  trace : list effect
}.

Definition emit (e : effect) (w : world) : world :=
  {| sessions := sessions w; wssMap := wssMap w; nextWss := nextWss w;
     nextClient := nextClient w; trace := trace w ++ [e] |}.

Definition setWssMap (m : gmap string WebSocketServer) (w : world) : world :=
  {| sessions := sessions w; wssMap := m; nextWss := nextWss w;
     nextClient := nextClient w; trace := trace w |}.

(** The state of a freshly started process: [wssMap = new Map()], no
    session, nothing done yet. *)
Definition initialWorld : world :=
  {| sessions := ∅; wssMap := ∅; nextWss := 0%nat; nextClient := 0%nat; trace := [] |}.

(** ** websocket module *)

Module WebSocket.

Definition ctxSession (sessionId : string) : log_ctx :=
  {| log_sessionId := Some sessionId; log_dataType := None;
     log_err := None; log_data := None |}.

(** [initWebSocketServer]: when enabled and no server is registered for
    the session, a new acceptor is created and stored. *)
Definition initWebSocketServer (cfg : config) (sessionId : string) (w : world) : world :=
  if enableWebSocket cfg then
    match wssMap w !! sessionId with
    | Some _ => w
    | None =>
        let wss := {| wss_id := nextWss w; clients := [] |} in
        {| sessions := sessions w;
           wssMap := <[sessionId := wss]> (wssMap w);
           nextWss := S (nextWss w);
           nextClient := nextClient w;
           trace := trace w |}
    end
  else w.

(** What the acceptor answers to [server.close(cb)]: nothing yet, the
    callback without an error, or the callback with an error. *)
Inductive close_signal :=
| CloseNotYet
| CloseConfirmed
| CloseFailed (err : string).

(** [new Promise((resolve, reject) =>
      server.close(err => (err ? reject(err) : resolve(undefined))))] *)
Definition closeEventSignal (sig : close_signal) : settlement Js.value :=
  match sig with
  | CloseNotYet => newPromise []
  | CloseConfirmed => newPromise [CallResolve Js.VUndefined]
  | CloseFailed err => newPromise [CallReject err]
  end.

(** [for (const ws of server.clients) { ws.terminate() }] *)
Definition terminateClients (cs : list conn) (w : world) : world :=
  foldl (fun w ws => emit (WsTerminate ws) w) w cs.

(** [terminateWebSocketServer]: the returned settlement is the fate of
    the promise of the async function. *)
Definition terminateWebSocketServer (sessionId : string) (sig : close_signal)
    (w : world) : world * settlement Js.value :=
  match wssMap w !! sessionId with
  | None => (w, Fulfilled Js.VUndefined)
  | Some server =>
      let w1 := emit (WssClose (wss_id server)) w in
      let w2 := terminateClients (clients server) w1 in
      let w3 := setWssMap (delete sessionId (wssMap w2)) w2 in
      (w3, closeEventSignal sig)
  end.

(** [for (const ws of server.clients) { ws.send(JSON.stringify(payload)) }] *)
Definition sendAll (payload : envelope) (cs : list conn) (w : world) : world :=
  foldl (fun w ws => emit (WsSend ws payload) w) w cs.

(** [triggerWebSocket] *)
Definition triggerWebSocket (sessionId dataType : string) (data : Js.value)
    (w : world) : world :=
  match wssMap w !! sessionId with
  | Some server =>
      sendAll {| env_dataType := dataType; env_data := data; env_sessionId := sessionId |}
              (clients server) w
  | None => w
  end.

(** What [new URL(request.url, baseUrl)] comes to: the pathname of the
    URL, or the TypeError that the constructor throws on a request target
    or a Host header it cannot parse. *)
Inductive url_outcome :=
| UrlPathname (pathname : string)
| UrlInvalid (reason : string).

(** An upgrade request: its request target and Host header, what the URL
    constructor makes of them, and whether the acceptor, once it is given
    the socket, completes the WebSocket handshake. *)
Record request := {
  url : string;
  host : string;
  parsed : url_outcome;
  handshake : bool
}.

(** ['ws://' + request.headers.host + '/'] *)
Definition baseUrl (req : request) : string := "ws://" +:+ host req +:+ "/".

(** How a call of [handleUpgrade] ends. *)
Inductive outcome :=
| Returned
| Threw (reason : string).

(** [Set.prototype.add] *)
Definition setAdd (c : conn) (cs : list conn) : list conn :=
  if bool_decide (c ∈ cs) then cs else cs ++ [c].

(** [server.handleUpgrade(request, socket, head, cb)]: the socket is
    handed to the acceptor.  If the handshake succeeds the acceptor
    tracks the connection in [clients] and runs the callback, which emits
    [connection], and the listener installed by [initWebSocketServer]
    logs it.  If the acceptor refuses the handshake the callback does not
    run; how the acceptor then answers and closes the socket is its own
    business and is not traced. *)
Definition acceptUpgrade (sessionId : string) (server : WebSocketServer)
    (handshakeOk : bool) (socket : conn) (w : world) : world :=
  let w1 := emit (WssHandleUpgrade (wss_id server) socket) w in
  if handshakeOk then
    let server' := {| wss_id := wss_id server;
                      clients := setAdd socket (clients server) |} in
    let w2 := setWssMap (<[sessionId := server']> (wssMap w1)) w1 in
    emit (LogDebug (ctxSession sessionId) "WebSocket connection established") w2
  else w1.

(** [handleUpgrade]: a TypeError of the URL constructor is not caught;
    [pathname.split('/')[2]] is the session id. *)
Definition handleUpgrade (req : request) (socket : conn) (w : world) : world * outcome :=
  match parsed req with
  | UrlInvalid reason => (w, Threw reason)
  | UrlPathname pathname =>
      (if Js.startsWith pathname "/ws/" then
         match Js.split "/" pathname !! 2%nat with
         | Some sessionId =>
             match wssMap w !! sessionId with
             | Some server => acceptUpgrade sessionId server (handshake req) socket w
             | None => emit (SocketDestroy socket) w
             end
         | None => emit (SocketDestroy socket) w
         end
       else emit (SocketDestroy socket) w,
       Returned)
  end.

End WebSocket.

(** ** utils module *)

Module Utils.

(** How a call returns to its caller. *)
Inductive completion (A : Type) :=
| Normal (v : A)
| Throw (reason : string).
Arguments Normal {A} v.
Arguments Throw {A} reason.

(** [p.then(onFulfilled)] and [p.catch(onRejected)] with handlers that
    return [undefined] normally: the handler's effects and the fate of
    the derived promise. *)
Definition thenDo (p : settlement Js.value) (onFulfilled : Js.value -> world -> world)
    (w : world) : world * settlement Js.value :=
  match p with
  | Fulfilled v => (onFulfilled v w, Fulfilled Js.VUndefined)
  | Rejected r => (w, Rejected r)
  | Pending => (w, Pending)
  end.

Definition catchDo (p : settlement Js.value) (onRejected : string -> world -> world)
    (w : world) : world * settlement Js.value :=
  match p with
  | Fulfilled v => (w, Fulfilled v)
  | Rejected r => (onRejected r w, Fulfilled Js.VUndefined)
  | Pending => (w, Pending)
  end.

(** What becomes of one [axios.post]: no answer, a 2xx answer, or a
    failure (refused connection, error status, time-out). *)
Inductive post_outcome :=
| PostPending
| PostOk (response : Js.value)
| PostFailed (err : string).

Definition axiosPost (outcome : post_outcome) : settlement Js.value :=
  match outcome with
  | PostPending => Pending
  | PostOk response => Fulfilled response
  | PostFailed err => Rejected err
  end.

Definition ctxEvent (sessionId dataType : string) (err : option string)
    (data : Js.value) : log_ctx :=
  {| log_sessionId := Some sessionId; log_dataType := Some dataType;
     log_err := err; log_data := Some (Js.or data (Js.VStr "")) |}.

(** [triggerWebhook] *)
Definition triggerWebhook (cfg : config) (webhookURL sessionId dataType : string)
    (data : Js.value) (outcome : post_outcome) (w : world)
    : world * completion Js.value :=
  let body := {| env_dataType := dataType; env_data := data; env_sessionId := sessionId |} in
  let w1 := emit (HttpPost webhookURL body [("x-api-key", globalApiKey cfg)]) w in
  let '(w2, p) :=
    thenDo (axiosPost outcome)
      (fun _ => emit (LogDebug (ctxEvent sessionId dataType None data)
                        ("New webhook message sent to " +:+ webhookURL))) w1 in
  let '(w3, _) :=
    catchDo p
      (fun error => emit (LogError (ctxEvent sessionId dataType (Some error) data)
                            ("Failed to send new webhook message to " +:+ webhookURL))) w2 in
  (w3, Normal Js.VUndefined).

(** [sendErrorResponse] *)
Definition sendErrorResponse (status : Z) (message : string) (w : world) : world :=
  emit (ResStatusJson status false message) w.

(** The environment of one readiness wait: the time [Date.now()] shows
    when the wait starts, the content of the root object at each time,
    and by how many milliseconds the k-th timer fires late. *)
Record poll_env := {
  start : Z;
  rootAt : Z -> Js.value;
  lateness : nat -> nat
}.

(** [nestedPath.split('.').reduce((obj, key) => obj ? obj[key] : undefined, rootObj)] *)
Definition nested (rootObj : Js.value) (nestedPath : string) : Js.value :=
  foldl (fun obj key => if Js.truthy obj then Js.get obj key else Js.VUndefined)
        rootObj (Js.split "." nestedPath).

(** The delay [setTimeout] really uses: a delay below 1 or above
    2^31 - 1 is replaced by 1. *)
Definition setTimeoutDelay (ms : Z) : Z :=
  if (ms <? 1) || (2147483647 <? ms) then 1 else ms.

Inductive wait_result :=
| StillWaiting
| ResolvedAt (t : Z)
| RejectedAt (t : Z) (msg : string).

(** The time of the k-th run of [checkObject] (the first run is number
    0 and happens in the call itself). *)
Fixpoint pollTime (env : poll_env) (interval : Z) (k : nat) : Z :=
  match k with
  | O => start env
  | S k' => pollTime env interval k' + setTimeoutDelay interval + Z.of_nat (lateness env k')
  end.

(** [checkObject], run number [k] at time [now]; [fuel] bounds the number
    of runs that are followed. *)
Fixpoint checkObject (env : poll_env) (nestedPath : string) (maxWaitTime interval : Z)
    (fuel : nat) (k : nat) (now : Z) : wait_result :=
  match fuel with
  | O => StillWaiting
  | S fuel' =>
      if Js.truthy (nested (rootAt env now) nestedPath) then ResolvedAt now
      else if maxWaitTime <? now - start env then
        RejectedAt now "Timeout waiting for nested object"
      else
        checkObject env nestedPath maxWaitTime interval fuel' (S k)
          (now + setTimeoutDelay interval + Z.of_nat (lateness env k))
  end.

(** A number of runs that is always enough. *)
Definition pollBudget (maxWaitTime interval : Z) : nat :=
  (Z.to_nat (Z.max 0 maxWaitTime / setTimeoutDelay interval) + 2)%nat.

Definition ctxNone : log_ctx :=
  {| log_sessionId := None; log_dataType := None; log_err := None; log_data := None |}.

(** [waitForNestedObject(rootObj, nestedPath, maxWaitTime = 10000, interval = 100)];
    the root object is given by [rootAt env]. *)
Definition waitForNestedObject (env : poll_env) (nestedPath : string)
    (maxWaitTime interval : option Z) (w : world) : world * wait_result :=
  let maxWaitTime := default 10000 maxWaitTime in
  let interval := default 100 interval in
  let r := checkObject env nestedPath maxWaitTime interval
             (pollBudget maxWaitTime interval) 0 (start env) in
  match r with
  | RejectedAt _ _ => (emit (LogError ctxNone "Timed out waiting for nested object") w, r)
  | _ => (w, r)
  end.

(** Run number [j] neither resolves nor rejects: the nested value is
    not truthy and the elapsed time does not exceed the bound. *)
Definition continues (env : poll_env) (nestedPath : string) (maxWaitTime interval : Z)
    (j : nat) : Prop :=
  Js.truthy (nested (rootAt env (pollTime env interval j)) nestedPath) = false ∧
  pollTime env interval j - start env <= maxWaitTime.

(** Whether the promise of a wait with result [r] is settled at time [t]. *)
Definition settledBy (r : wait_result) (t : Z) : bool :=
  match r with
  | StillWaiting => false
  | ResolvedAt t' | RejectedAt t' _ => t' <=? t
  end.

(** [checkIfEventisEnabled] *)
Definition checkIfEventisEnabled (cfg : config) (event : string) : settlement Js.value :=
  newPromise (if negb (Js.includes (disabledCallbacks cfg) event)
              then [CallResolve Js.VUndefined] else []).

End Utils.

(** ** sessions module *)

Module Sessions.

(** Modelled from the spec: the sessions module ([setupSession] and the
    event binding of the supervisor) is not among the sources; only its
    callers are.  The result of [create] is [Result<Handle, Conflict>]
    (section 4.1). *)
Inductive create_result :=
| Created (handle : nat)
| Conflict.

(** Modelled from the spec: an active session is one that is not
    terminated (section 4.1); the sessions module is not among the
    sources. *)
Definition active (s : Session) : bool :=
  match status s with
  | TERMINATED => false
  | _ => true
  end.

Definition hasActive (w : world) (sessionId : string) : bool :=
  match sessions w !! sessionId with
  | Some s => active s
  | None => false
  end.

(** Modelled from the spec: [create] of section 4.1, whose code (the
    sessions module) is not among the sources.  It fails with [Conflict]
    if an active session with the id exists.  Otherwise it persists the
    identity, instantiates the automation client, inserts a [Session] in
    [STARTING] with the webhook URL resolved from the override or the
    process-wide default, and begins the connect sequence. *)
Definition create (baseWebhookURL : string) (sessionId : string)
    (webhookOverride : option string) (w : world) : world * create_result :=
  if hasActive w sessionId then (w, Conflict)
  else
    let s := {| id := sessionId; status := STARTING; qrPayload := None;
                webhookURL := default baseWebhookURL webhookOverride;
                clientHandle := nextClient w |} in
    ({| sessions := <[sessionId := s]> (sessions w);
        wssMap := wssMap w;
        nextWss := nextWss w;
        nextClient := S (nextClient w);
        trace := trace w ++ [PersistIdentity sessionId; ClientInitialize (nextClient w)] |},
     Created (nextClient w)).

(** Modelled from the spec: the object [setupSession] returns, with the
    three fields its caller [startSession] reads. *)
Record setupSessionReturn := {
  success : bool;
  message : string;
  client : option nat
}.

(** Modelled from the spec: [setupSession], the entry of the sessions
    module that [startSession] calls (not among the sources), as [create]
    without a webhook override. *)
Definition setupSession (baseWebhookURL : string) (sessionId : string) (w : world)
    : world * setupSessionReturn :=
  let '(w', r) := create baseWebhookURL sessionId None w in
  match r with
  | Created h => (w', {| success := true; message := "Created"; client := Some h |})
  | Conflict => (w', {| success := false; message := "Conflict"; client := None |})
  end.

(** Modelled from the spec: one event of the automation client, as the
    supervisor of the sessions module (not among the sources) receives
    it. *)
Record client_event := {
  ev_dataType : string;
  ev_data : Js.value;
  ev_qr : option string
}.

(** Modelled from the spec: the transition table of section 4.3 (the
    sessions module is not among the sources). *)
Definition transition (ev : client_event) (s : Session) : Session :=
  let set st q := {| id := id s; status := st; qrPayload := q;
                     webhookURL := webhookURL s; clientHandle := clientHandle s |} in
  if String.eqb (ev_dataType ev) "qr" then
    match status s with
    | STARTING => set QR_PENDING (ev_qr ev)
    | _ => s
    end
  else if String.eqb (ev_dataType ev) "ready" || String.eqb (ev_dataType ev) "authenticated" then
    match status s with
    | STARTING | QR_PENDING => set CONNECTED None
    | _ => s
    end
  else if String.eqb (ev_dataType ev) "disconnected" then
    match status s with
    | CONNECTED => set DISCONNECTED None
    | _ => s
    end
  else s.

Definition setSessions (m : gmap string Session) (w : world) : world :=
  {| sessions := m; wssMap := wssMap w; nextWss := nextWss w;
     nextClient := nextClient w; trace := trace w |}.

(** Modelled from the spec: the supervisor's handling of one client event
    (section 4.3), whose code (the sessions module) is not among the
    sources: the state transition, then the Callback Filter, then, if not
    filtered, both sinks. *)
Definition onClientEvent (cfg : config) (sessionId : string) (ev : client_event)
    (outcome : Utils.post_outcome) (w : world) : world :=
  match sessions w !! sessionId with
  | None => w
  | Some s =>
      let w1 := setSessions (<[sessionId := transition ev s]> (sessions w)) w in
      fst (Utils.thenDo (Utils.checkIfEventisEnabled cfg (ev_dataType ev))
             (fun _ w =>
                let '(w', _) := Utils.triggerWebhook cfg (webhookURL s) sessionId
                                  (ev_dataType ev) (ev_data ev) outcome w in
                WebSocket.triggerWebSocket sessionId (ev_dataType ev) (ev_data ev) w')
             w1)
  end.

(** Modelled from the spec: a run of the supervisor (sessions module,
    not among the sources) over the client events of any sessions, in the
    order they are emitted, each with the fate of its webhook post. *)
Definition run (cfg : config) (evs : list (string * client_event * Utils.post_outcome))
    (w : world) : world :=
  foldl (fun w '(sessionId, ev, outcome) => onClientEvent cfg sessionId ev outcome w) w evs.

End Sessions.

(** ** session controller *)

Module SessionController.

Definition ctxFailure (sessionId err : string) : log_ctx :=
  {| log_sessionId := Some sessionId; log_dataType := None;
     log_err := Some err; log_data := None |}.

(** [startSession]; [env] is the environment of the readiness wait on
    the client's [pupPage]. *)
Definition startSession (baseWebhookURL : string) (sessionId : string)
    (env : Utils.poll_env) (w : world) : world :=
  let '(w1, setupSessionReturn) := Sessions.setupSession baseWebhookURL sessionId w in
  if negb (Sessions.success setupSessionReturn) then
    Utils.sendErrorResponse 422 (Sessions.message setupSessionReturn) w1
  else
    let '(w2, r) := Utils.waitForNestedObject env "pupPage" None None w1 in
    match r with
    | Utils.ResolvedAt _ =>
        emit (ResStatusJson 200 true (Sessions.message setupSessionReturn)) w2
    | Utils.RejectedAt _ msg =>
        Utils.sendErrorResponse 500 msg
          (emit (LogError (ctxFailure sessionId msg) "Failed to start session") w2)
    | Utils.StillWaiting => w2
    end.

End SessionController.

(** ** server bootstrap *)

Module Server.

(** The listener for [upgrade] events of the HTTP server: installed only
    when websocket mode is enabled. *)
Definition upgradeListener (cfg : config)
    : option (WebSocket.request -> conn -> world -> world * WebSocket.outcome) :=
  if enableWebSocket cfg then Some WebSocket.handleUpgrade else None.

(** Where an incoming upgrade request goes: to the listener, or, when
    none is installed, to the HTTP application like any other request
    (the HTTP server does so since Node 10). *)
Inductive disposition :=
| ByListener (r : WebSocket.outcome)
| ToApplication.

(** What the server does with an incoming upgrade request.  What the
    application answers to a request passed on to it is not part of the
    trace. *)
Definition onUpgrade (cfg : config) (req : WebSocket.request) (socket : conn)
    (w : world) : world * disposition :=
  match upgradeListener cfg with
  | Some listener => let '(w', r) := listener req socket w in (w', ByListener r)
  | None => (w, ToApplication)
  end.

(** The calls that reach the websocket module during the life of the
    process.  A listener that throws leaves the world as it was; if that
    ends the process, the run ends there, and what is proved of every
    run holds of the run up to that point. *)
Inductive hub_call :=
| CallInit (sessionId : string)
| CallTerminate (sessionId : string) (sig : WebSocket.close_signal)
| CallTrigger (sessionId dataType : string) (data : Js.value)
| CallUpgrade (req : WebSocket.request) (socket : conn).

Definition hubStep (cfg : config) (w : world) (c : hub_call) : world :=
  match c with
  | CallInit sessionId => WebSocket.initWebSocketServer cfg sessionId w
  | CallTerminate sessionId sig => fst (WebSocket.terminateWebSocketServer sessionId sig w)
  | CallTrigger sessionId dataType data => WebSocket.triggerWebSocket sessionId dataType data w
  | CallUpgrade req socket => fst (onUpgrade cfg req socket w)
  end.

Definition hubRun (cfg : config) (calls : list hub_call) (w : world) : world :=
  foldl (hubStep cfg) w calls.

End Server.

(** ** Vocabulary of the specification *)

Module Spec.

(** The Callback Filter as the specification words it:
    [isEnabled(dataType) -> bool], true exactly when the dataType is not
    in the suppression set. *)
Definition isEnabled (cfg : config) (dataType : string) : bool :=
  negb (bool_decide (dataType ∈ disabledCallbacks cfg)).

Definition isHttpPost (e : effect) : bool :=
  match e with
  | HttpPost _ _ _ => true
  | _ => false
  end.

(** A webhook post or a WebSocket message for the given dataType. *)
Definition isDispatchOf (dataType : string) (e : effect) : bool :=
  match e with
  | HttpPost _ body _ => String.eqb (env_dataType body) dataType
  | WsSend _ payload => String.eqb (env_dataType payload) dataType
  | _ => false
  end.

(** The log line that follows a webhook post, once its fate is known. *)
Definition webhookLog (webhookURL sessionId dataType : string) (data : Js.value)
    (outcome : Utils.post_outcome) : list effect :=
  match outcome with
  | Utils.PostPending => []
  | Utils.PostOk _ =>
      [LogDebug (Utils.ctxEvent sessionId dataType None data)
                ("New webhook message sent to " +:+ webhookURL)]
  | Utils.PostFailed err =>
      [LogError (Utils.ctxEvent sessionId dataType (Some err) data)
                ("Failed to send new webhook message to " +:+ webhookURL)]
  end.

(** The number of registry entries held for a session id. *)
Definition entriesFor (sessionId : string) (reg : gmap string Session) : nat :=
  size (filter (fun kv => kv.1 = sessionId) reg).

Definition isWsSend (e : effect) : bool :=
  match e with
  | WsSend _ _ => true
  | _ => false
  end.

(** Something done to a raw socket other than handing it to an acceptor. *)
Definition isSocketDestroy (socket : conn) (e : effect) : bool :=
  match e with
  | SocketDestroy s => Nat.eqb s socket
  | _ => false
  end.

Fixpoint noSlash (s : string) : bool :=
  match s with
  | EmptyString => true
  | String c rest => negb (Ascii.eqb c "/") && noSlash rest
  end.

(** The path is [/ws/<sessionId>], possibly followed by further
    segments: the session id is the segment after [/ws/]. *)
Definition wsPath (path sessionId : string) : Prop :=
  noSlash sessionId = true ∧
  ∃ rest, path = "/ws/" +:+ sessionId +:+ rest ∧
          (rest = "" ∨ ∃ r, rest = String "/" r).

End Spec.

(** ** Concrete configurations and inputs used in examples *)

Module Sample.

Definition cfgNoWebSocket : config :=
  {| enableWebSocket := false; disabledCallbacks := []; globalApiKey := "secret" |}.

Definition cfgMessageOff : config :=
  {| enableWebSocket := true; disabledCallbacks := ["message"%string];
     globalApiKey := "secret" |}.

(** Readiness waits that start at time 0 with timers that fire on time:
    the polled field is always [null], always [0], or set from time 250
    on. *)
Definition envNull : Utils.poll_env :=
  {| Utils.start := 0;
     Utils.rootAt := fun _ => Js.VObj [("pupPage"%string, Js.VNull)];
     Utils.lateness := fun _ => 0%nat |}.

Definition envZero : Utils.poll_env :=
  {| Utils.start := 0;
     Utils.rootAt := fun _ => Js.VObj [("pupPage"%string, Js.VNum 0)];
     Utils.lateness := fun _ => 0%nat |}.

Definition envReady : Utils.poll_env :=
  {| Utils.start := 0;
     Utils.rootAt := fun t => Js.VObj [("pupPage"%string,
                                       if t <? 250 then Js.VNull else Js.VObj [])];
     Utils.lateness := fun _ => 0%nat |}.

(** Upgrade requests to [localhost:3000]: for session [abc], with a
    handshake that succeeds or one that the acceptor refuses, and one
    with the request target [//], which the URL constructor rejects. *)
Definition reqTo (target : string) : WebSocket.request :=
  {| WebSocket.url := target; WebSocket.host := "localhost:3000";
     WebSocket.parsed := WebSocket.UrlPathname target; WebSocket.handshake := true |}.

Definition reqAbc : WebSocket.request := reqTo "/ws/abc".

Definition reqAbcRefused : WebSocket.request :=
  {| WebSocket.url := "/ws/abc"; WebSocket.host := "localhost:3000";
     WebSocket.parsed := WebSocket.UrlPathname "/ws/abc"; WebSocket.handshake := false |}.

Definition reqBadTarget : WebSocket.request :=
  {| WebSocket.url := "//"; WebSocket.host := "localhost:3000";
     WebSocket.parsed := WebSocket.UrlInvalid "Invalid URL"; WebSocket.handshake := true |}.

(** A registry with one connected session [abc] that has two
    subscribers, and two events of that session. *)
Definition oneSession : world :=
  {| sessions := {[ "abc"%string :=
                     {| id := "abc"; status := CONNECTED; qrPayload := None;
                        webhookURL := "http://hook"; clientHandle := 0%nat |} ]};
     wssMap := {[ "abc"%string := {| wss_id := 0%nat; clients := [4%nat; 5%nat] |} ]};
     nextWss := 1%nat; nextClient := 1%nat; trace := [] |}.

Definition messageEvent : Sessions.client_event :=
  {| Sessions.ev_dataType := "message"; Sessions.ev_data := Js.VStr "hello";
     Sessions.ev_qr := None |}.

Definition ackEvent : Sessions.client_event :=
  {| Sessions.ev_dataType := "message_ack"; Sessions.ev_data := Js.VNum 3;
     Sessions.ev_qr := None |}.

Definition someEvents : list (string * Sessions.client_event * Utils.post_outcome) :=
  [("abc"%string, messageEvent, Utils.PostOk Js.VUndefined);
   ("abc"%string, ackEvent, Utils.PostFailed "ECONNREFUSED");
   ("abc"%string, messageEvent, Utils.PostFailed "ECONNREFUSED")].

(** A hub with one session [abc] that has two subscribers. *)
Definition hubAbc : world :=
  {| sessions := ∅;
     wssMap := {[ "abc"%string := {| wss_id := 0%nat; clients := [4%nat; 5%nat] |} ]};
     nextWss := 1%nat; nextClient := 0%nat; trace := [] |}.

End Sample.

(** ** Request handlers: effects and control flow *)

Module Api.

(** What a request handler or helper does besides computing: answers on
    [res], log lines, and calls into the sessions module, the automation
    client, the QR printer and the file system. *)
Inductive action :=
| ResJson (status : Z) (body : Js.value)
| ResPng (qr : Js.value)
| LogFailure (sessionId : option string) (msg : string) (err : Js.value)
| CallValidateSession (sessionId : string)
| CallReloadSession (sessionId : string)
| CallDeleteSession (sessionId : string) (validation : Js.value)
| CallFlushSessions (deleteOnlyInactive : bool)
| CallRequestPairingCode (sessionId : string) (phoneNumber showNotification : Js.value)
| CallGetContactById (sessionId : string) (contactId : Js.value)
| CallContactMethod (method : string)
| CallGetChat
| CallSendSeen
| QrGenerate (text : Js.value)
| Mkdir (path : string)
| AppendFile (path : string) (json : Js.value).

Definition isResponse (a : action) : bool :=
  match a with
  | ResJson _ _ | ResPng _ => true
  | _ => false
  end.

(** The request is answered exactly once, as the last thing done. *)
Definition answersOnce (acts : list action) : Prop :=
  ∃ pre a, acts = pre ++ [a] ∧ isResponse a = true ∧
           Forall (fun x => isResponse x = false) pre.

(** How an awaited call or a block of a handler ends: with a value, or
    by throwing (rejecting with) a value, which may be any value, not
    only an [Error]. *)
Inductive result (A : Type) :=
| Ok (v : A)
| Raise (error : Js.value).
Arguments Ok {A} v.
Arguments Raise {A} error.

(** [new Error(message)], as far as the handlers look at it. *)
Definition errorObject (message : string) : Js.value :=
  Js.VObj [("message"%string, Js.VStr message)].

(** An asynchronous computation inside a handler: the actions done so
    far, and how it ended. *)
Definition M (A : Type) : Type := list action * result A.

Definition ret {A} (a : A) : M A := ([], Ok a).

(** [throw new Error(reason)] *)
Definition throw {A} (reason : string) : M A := ([], Raise (errorObject reason)).

Definition bind {A B} (m : M A) (f : A -> M B) : M B :=
  match m with
  | (l, Ok a) => let '(l', r) := f a in (l ++ l', r)
  | (l, Raise e) => (l, Raise e)
  end.

Definition act (a : action) : M unit := ([a], Ok tt).

(** [await f(...)]: the call is made and its outcome is what the
    environment gives. *)
Definition call {A} (a : action) (outcome : result A) : M A := ([a], outcome).

Definition lift {A} (c : result A) : M A := ([], c).

(** [try { m } catch (error) { handler(error) }]: the handler gets the
    thrown value itself. *)
Definition tryCatch {A} (m : M A) (handler : Js.value -> M A) : M A :=
  match m with
  | (l, Ok a) => (l, Ok a)
  | (l, Raise e) => let '(l', r) := handler e in (l ++ l', r)
  end.

Declare Scope handler_scope.
Delimit Scope handler_scope with handler.
Notation "x <- m ;; k" := (bind m (fun x => k))
  (at level 100, m at next level, right associativity) : handler_scope.
Notation "m ;;; k" := (bind m (fun _ => k))
  (at level 100, right associativity) : handler_scope.

Definition isNullish (v : Js.value) : bool :=
  match v with
  | Js.VUndefined | Js.VNull => true
  | _ => false
  end.

Definition nullishName (v : Js.value) : string :=
  match v with
  | Js.VNull => "null"
  | _ => "undefined"
  end.

(** [obj.key] and [obj.key(...)] when [obj] may be [null] or [undefined]:
    the TypeError of the engine. *)
Definition readProp (obj : Js.value) (key : string) : result Js.value :=
  if isNullish obj then
    Raise (errorObject ("Cannot read properties of " +:+ nullishName obj +:+
                        " (reading '" +:+ key +:+ "')"))
  else Ok (Js.get obj key).

(** [const { firstKey, ... } = req.body] *)
Definition destructure (body : Js.value) (firstKey : string) : result unit :=
  if isNullish body then
    Raise (errorObject ("Cannot destructure property '" +:+ firstKey +:+
                        "' of 'req.body' as it is " +:+ nullishName body +:+ "."))
  else Ok tt.

(** The value that the catch block of a handler receives from the calls
    it awaits in turn: that of the first one that fails. *)
Fixpoint caught (outcomes : list (result Js.value)) : option Js.value :=
  match outcomes with
  | [] => None
  | Ok _ :: rest => caught rest
  | Raise error :: _ => Some error
  end.

(** The catch block receives [null] or [undefined]. *)
Definition caughtNullish (outcomes : list (result Js.value)) : bool :=
  match caught outcomes with
  | Some error => isNullish error
  | None => false
  end.

(** The handler returned after answering the request exactly once, as
    the last thing it did. *)
Definition answered (m : M unit) : Prop :=
  m.2 = Ok tt ∧ answersOnce m.1.

(** The handler threw, out of its catch block, and left the request
    without an answer. *)
Definition unanswered (m : M unit) : Prop :=
  (∃ error, m.2 = Raise error) ∧ Forall (fun a => isResponse a = false) m.1.

(** A destructuring default [{ key = d }]: it applies to [undefined] only. *)
Definition withDefault (v d : Js.value) : Js.value :=
  match v with
  | Js.VUndefined => d
  | _ => v
  end.

(** [v === 'text'] *)
Definition isString (v : Js.value) (text : string) : bool :=
  match v with
  | Js.VStr s => String.eqb s text
  | _ => false
  end.

(** [sessions.get(sessionId)] on the map of client objects that the
    sessions module exports. *)
Definition sessionsGet (sessions : gmap string Js.value) (sessionId : string) : Js.value :=
  default Js.VUndefined (sessions !! sessionId).

Definition success (fields : list (string * Js.value)) : Js.value :=
  Js.VObj (("success"%string, Js.VBool true) :: fields).

Definition failure (message : string) : Js.value :=
  Js.VObj [("success"%string, Js.VBool false); ("message"%string, Js.VStr message)].

(** The body [{ success: false, error: message }]. *)
Definition errorBody (message : Js.value) : Js.value :=
  Js.VObj [("success"%string, Js.VBool false); ("error"%string, message)].

(** [sendErrorResponse(res, status, message)] with the body it sends. *)
Definition sendErrorResponse (status : Z) (message : Js.value) : M unit :=
  act (ResJson status (errorBody message)).

(** [sendErrorResponse(res, 500, error.message)] in a catch block:
    reading [error.message] throws in its turn when the caught value is
    [null] or [undefined]. *)
Definition failWith (error : Js.value) : M unit :=
  bind (lift (readProp error "message")) (sendErrorResponse 500).

(** [res.json(body)] *)
Definition resJson (body : Js.value) : M unit := act (ResJson 200 body).

(** [s.endsWith(suffix)] *)
Definition endsWith (s suffix : string) : bool :=
  (String.length suffix <=? String.length s)%nat &&
  String.eqb (String.substring (String.length s - String.length suffix)
                               (String.length suffix) s) suffix.

End Api.

(** ** utils module: seen status *)

Module Seen.

Import Api.
Local Open Scope handler_scope.

(** [sendMessageSeenStatus]; [getChat] and [sendSeen] are what
    [message.getChat()] and [chat.sendSeen()] come to. *)
Definition sendMessageSeenStatus (getChat sendSeen : result Js.value) : M unit :=
  tryCatch
    (chat <- call CallGetChat getChat ;;
     _ <- lift (readProp chat "sendSeen") ;;
     _ <- call CallSendSeen sendSeen ;;
     ret tt)
    (fun error => act (LogFailure None "Failed to send seen status" error)).

End Seen.

(** ** session controller: the other endpoints *)

Module SessionEndpoints.

Import Api.
Local Open Scope handler_scope.

(** [logger.error({ sessionId, err: error }, msg)] followed by
    [sendErrorResponse(res, 500, error.message)]. *)
Definition logAndFail (sessionId : option string) (msg : string) (error : Js.value)
    : M unit :=
  act (LogFailure sessionId msg error) ;;; failWith error.

(** [statusSession] *)
Definition statusSession (sessionId : string) (validation : result Js.value) : M unit :=
  tryCatch
    (sessionData <- call (CallValidateSession sessionId) validation ;;
     resJson sessionData)
    (logAndFail (Some sessionId) "Failed to get session status").

(** [sessionQrCode] *)
Definition sessionQrCode (sessions : gmap string Js.value) (sessionId : string) : M unit :=
  tryCatch
    (let session := sessionsGet sessions sessionId in
     if negb (Js.truthy session) then resJson (failure "session_not_found")
     else if Js.truthy (Js.get session "qr") then
       resJson (success [("qr"%string, Js.get session "qr")])
     else resJson (failure "qr code not ready or already scanned"))
    (logAndFail (Some sessionId) "Failed to get session qr code").

(** [sessionQrCodeImage] *)
Definition sessionQrCodeImage (sessions : gmap string Js.value) (sessionId : string)
    : M unit :=
  tryCatch
    (let session := sessionsGet sessions sessionId in
     if negb (Js.truthy session) then resJson (failure "session_not_found")
     else if Js.truthy (Js.get session "qr") then act (ResPng (Js.get session "qr"))
     else resJson (failure "qr code not ready or already scanned"))
    (logAndFail (Some sessionId) "Failed to get session qr code image").

(** [restartSession] *)
Definition restartSession (sessionId : string)
    (validation reload : result Js.value) : M unit :=
  tryCatch
    (validation <- call (CallValidateSession sessionId) validation ;;
     message <- lift (readProp validation "message") ;;
     if isString message "session_not_found" then resJson validation
     else
       _ <- call (CallReloadSession sessionId) reload ;;
       resJson (success [("message"%string, Js.VStr "Restarted successfully")]))
    (logAndFail (Some sessionId) "Failed to restart session").

(** [terminateSession] *)
Definition terminateSession (sessionId : string)
    (validation delete : result Js.value) : M unit :=
  tryCatch
    (validation <- call (CallValidateSession sessionId) validation ;;
     message <- lift (readProp validation "message") ;;
     if isString message "session_not_found" then resJson validation
     else
       _ <- call (CallDeleteSession sessionId validation) delete ;;
       resJson (success [("message"%string, Js.VStr "Logged out successfully")]))
    (logAndFail (Some sessionId) "Failed to terminate session").

(** [terminateInactiveSessions] *)
Definition terminateInactiveSessions (flush : result Js.value) : M unit :=
  tryCatch
    (_ <- call (CallFlushSessions true) flush ;;
     resJson (success [("message"%string, Js.VStr "Flush completed successfully")]))
    (logAndFail None "Failed to terminate inactive sessions").

(** [terminateAllSessions] *)
Definition terminateAllSessions (flush : result Js.value) : M unit :=
  tryCatch
    (_ <- call (CallFlushSessions false) flush ;;
     resJson (success [("message"%string, Js.VStr "Flush completed successfully")]))
    (logAndFail None "Failed to terminate all sessions").

(** [requestPairingCode]; [body] is [req.body]. *)
Definition requestPairingCode (sessions : gmap string Js.value) (sessionId : string)
    (body : Js.value) (pairing : result Js.value) : M unit :=
  tryCatch
    (_ <- lift (destructure body "phoneNumber") ;;
     let phoneNumber := Js.get body "phoneNumber" in
     let showNotification := withDefault (Js.get body "showNotification") (Js.VBool true) in
     let client := sessionsGet sessions sessionId in
     if negb (Js.truthy client) then resJson (failure "session_not_found")
     else
       result <- call (CallRequestPairingCode sessionId phoneNumber showNotification) pairing ;;
       resJson (success [("result"%string, result)]))
    failWith.

End SessionEndpoints.

(** ** health controller *)

Module Health.

Import Api.
Local Open Scope handler_scope.

(** [ping] *)
Definition ping : M unit :=
  resJson (success [("message"%string, Js.VStr "pong")]).

(** [localCallbackExample]; [body] is [req.body], and the three outcomes
    are those of [qrcode.generate], [fsp.mkdir] and [fsp.writeFile]. *)
Definition localCallbackExample (sessionFolderPath : string) (body : Js.value)
    (generate mkdir write : result Js.value) : M unit :=
  tryCatch
    (_ <- lift (destructure body "dataType") ;;
     let dataType := Js.get body "dataType" in
     let data := Js.get body "data" in
     _ <- (if isString dataType "qr" then
             qr <- lift (readProp data "qr") ;;
             call (QrGenerate qr) generate
           else ret Js.VUndefined) ;;
     _ <- call (Mkdir sessionFolderPath) mkdir ;;
     _ <- call (AppendFile (sessionFolderPath +:+ "/message_log.txt") body) write ;;
     resJson (success []))
    (fun error =>
       act (LogFailure None "Failed to handle local callback" error) ;;;
       failWith error).

End Health.

(** ** contact controller *)

Module Contact.

Import Api.
Local Open Scope handler_scope.

(** The common body of the contact endpoints: the contact is looked up
    and, unless the endpoint only returns it, one method is called on it;
    [fallback] is the [|| null] that [getProfilePicUrl] puts after the
    call. *)
Definition withContact (method : option string) (fallback : option Js.value)
    (sessions : gmap string Js.value) (sessionId : string) (body : Js.value)
    (lookup outcome : result Js.value) : M unit :=
  tryCatch
    (_ <- lift (destructure body "contactId") ;;
     let contactId := Js.get body "contactId" in
     let client := sessionsGet sessions sessionId in
     _ <- lift (readProp client "getContactById") ;;
     contact <- call (CallGetContactById sessionId contactId) lookup ;;
     if negb (Js.truthy contact) then throw "Contact not found"
     else
       match method with
       | None => resJson (success [("contact"%string, contact)])
       | Some m =>
           result <- call (CallContactMethod m) outcome ;;
           let result := match fallback with
                         | Some d => Js.or result d
                         | None => result
                         end in
           resJson (success [("result"%string, result)])
       end)
    failWith.

Definition getClassInfo := withContact None None.
Definition block := withContact (Some "block"%string) None.
Definition getAbout := withContact (Some "getAbout"%string) None.
Definition getChat := withContact (Some "getChat"%string) None.
Definition getFormattedNumber := withContact (Some "getFormattedNumber"%string) None.
Definition getCountryCode := withContact (Some "getCountryCode"%string) None.
Definition getProfilePicUrl :=
  withContact (Some "getProfilePicUrl"%string) (Some Js.VNull).
Definition unblock := withContact (Some "unblock"%string) None.
Definition getCommonGroups := withContact (Some "getCommonGroups"%string) None.

End Contact.

(** ** message controller: contact ids *)

Module Message.

(** The contact id that [sendMessage] and [reply] look up for a
    [Contact] content:
    [content.contactId.endsWith('@c.us') ? content.contactId : `${content.contactId}@c.us`] *)
Definition contactId (content_contactId : string) : string :=
  if Api.endsWith content_contactId "@c.us" then content_contactId
  else content_contactId +:+ "@c.us".

End Message.

(** ** Invariant of the hub *)

Module Hub.

(** Every acceptor in the map was allocated before, no acceptor serves
    two session ids, and no connection is tracked twice by an acceptor. *)
Definition wellFormed (w : world) : Prop :=
  (∀ sessionId server, wssMap w !! sessionId = Some server →
     (wss_id server < nextWss w)%nat ∧ NoDup (clients server)) ∧
  (∀ id1 id2 server1 server2,
     wssMap w !! id1 = Some server1 → wssMap w !! id2 = Some server2 →
     wss_id server1 = wss_id server2 → id1 = id2).

Definition isInit (sessionId : string) (c : Server.hub_call) : bool :=
  match c with
  | Server.CallInit s => String.eqb s sessionId
  | _ => false
  end.

End Hub.

(** * Properties *)

(** ** Bookkeeping on worlds *)

Section WorldFacts.

Implicit Types (w : world) (e : effect).

Lemma terminateClients_trace cs w :
  trace (WebSocket.terminateClients cs w) = trace w ++ map WsTerminate cs.
Proof.
  unfold WebSocket.terminateClients.
  revert w. induction cs as [|c cs IH]; intros w; simpl.
  - by rewrite app_nil_r.
  - rewrite IH. simpl. by rewrite <- app_assoc.
Qed.

Lemma terminateClients_state cs w :
  wssMap (WebSocket.terminateClients cs w) = wssMap w ∧
  sessions (WebSocket.terminateClients cs w) = sessions w ∧
  nextWss (WebSocket.terminateClients cs w) = nextWss w ∧
  nextClient (WebSocket.terminateClients cs w) = nextClient w.
Proof.
  unfold WebSocket.terminateClients.
  revert w. induction cs as [|c cs IH]; intros w; simpl; [done|].
  destruct (IH (emit (WsTerminate c) w)) as (-> & -> & -> & ->). done.
Qed.

Lemma sendAll_trace payload cs w :
  trace (WebSocket.sendAll payload cs w) = trace w ++ map (fun ws => WsSend ws payload) cs.
Proof.
  unfold WebSocket.sendAll.
  revert w. induction cs as [|c cs IH]; intros w; simpl.
  - by rewrite app_nil_r.
  - rewrite IH. simpl. by rewrite <- app_assoc.
Qed.

Lemma sendAll_state payload cs w :
  wssMap (WebSocket.sendAll payload cs w) = wssMap w ∧
  sessions (WebSocket.sendAll payload cs w) = sessions w ∧
  nextWss (WebSocket.sendAll payload cs w) = nextWss w ∧
  nextClient (WebSocket.sendAll payload cs w) = nextClient w.
Proof.
  unfold WebSocket.sendAll.
  revert w. induction cs as [|c cs IH]; intros w; simpl; [done|].
  destruct (IH (emit (WsSend c payload) w)) as (-> & -> & -> & ->). done.
Qed.

Lemma world_eq w1 w2 :
  sessions w1 = sessions w2 → wssMap w1 = wssMap w2 → nextWss w1 = nextWss w2 →
  nextClient w1 = nextClient w2 → trace w1 = trace w2 → w1 = w2.
Proof. destruct w1, w2; simpl; intros; by subst. Qed.

End WorldFacts.

(** ** WebSocket hub: ensure *)

Section HubEnsure.

Variable cfg : config.

Lemma initWebSocketServer_present sessionId w server :
  wssMap w !! sessionId = Some server →
  WebSocket.initWebSocketServer cfg sessionId w = w.
Proof.
  intros H. unfold WebSocket.initWebSocketServer. rewrite H.
  by destruct (enableWebSocket cfg).
Qed.

Lemma initWebSocketServer_disabled sessionId w :
  enableWebSocket cfg = false →
  WebSocket.initWebSocketServer cfg sessionId w = w.
Proof. intros H. unfold WebSocket.initWebSocketServer. by rewrite H. Qed.

Lemma initWebSocketServer_fresh sessionId w :
  enableWebSocket cfg = true → wssMap w !! sessionId = None →
  wssMap (WebSocket.initWebSocketServer cfg sessionId w)
    = <[sessionId := {| wss_id := nextWss w; clients := [] |}]> (wssMap w) ∧
  nextWss (WebSocket.initWebSocketServer cfg sessionId w) = S (nextWss w).
Proof.
  intros He Hn. unfold WebSocket.initWebSocketServer. by rewrite He, Hn.
Qed.

(** C7.  [initWebSocketServer] is idempotent.  Called for a session id
    that already has an entry it changes nothing at all: the same
    acceptor stays in the map and no acceptor is created.  Hence calling
    it at session creation and again at restart gives the state of the
    first call, with at most one acceptor created and, when websocket
    mode is on, exactly the acceptor of the first call registered for the
    id. *)
Theorem initWebSocketServer_idempotent (sessionId : string) (w : world) :
  (∀ server, wssMap w !! sessionId = Some server →
     WebSocket.initWebSocketServer cfg sessionId w = w) ∧
  let created := WebSocket.initWebSocketServer cfg sessionId w in
  let restarted := WebSocket.initWebSocketServer cfg sessionId created in
  restarted = created ∧
  (nextWss restarted ≤ S (nextWss w))%nat ∧
  (enableWebSocket cfg = true →
   ∃ server, wssMap restarted !! sessionId = Some server ∧
             wssMap created !! sessionId = Some server).
Proof.
  split; [intros server; apply initWebSocketServer_present|].
  simpl. destruct (enableWebSocket cfg) eqn:He.
  - destruct (wssMap w !! sessionId) as [server|] eqn:Hl.
    + rewrite !(initWebSocketServer_present sessionId w server Hl).
      repeat split; [lia | eauto].
    + destruct (initWebSocketServer_fresh sessionId w He Hl) as [Hm Hn].
      assert (Hc : wssMap (WebSocket.initWebSocketServer cfg sessionId w) !! sessionId
                   = Some {| wss_id := nextWss w; clients := [] |})
        by (rewrite Hm; apply lookup_insert_eq).
      rewrite (initWebSocketServer_present _ _ _ Hc).
      repeat split; [lia | eauto].
  - rewrite !initWebSocketServer_disabled by done.
    repeat split; [lia | done].
Qed.

End HubEnsure.

(** ** WebSocket hub: close *)

(** C6.  [terminateWebSocketServer] on a session id with an entry asks
    the acceptor to close, terminates every connection in its [clients]
    set, and removes the entry while leaving every other entry alone; the
    call completes only when the acceptor has confirmed the closure (it
    stays pending while no confirmation came, and fails if the acceptor
    reports an error).  On a session id without an entry it completes at
    once, without error and without touching the world. *)
Theorem terminateWebSocketServer_close (sessionId : string)
    (sig : WebSocket.close_signal) (w : world) :
  let '(w', p) := WebSocket.terminateWebSocketServer sessionId sig w in
  match wssMap w !! sessionId with
  | Some server =>
      trace w' = trace w ++ WssClose (wss_id server) :: map WsTerminate (clients server) ∧
      (∀ ws, ws ∈ clients server → WsTerminate ws ∈ trace w') ∧
      wssMap w' !! sessionId = None ∧
      (∀ other, other ≠ sessionId → wssMap w' !! other = wssMap w !! other) ∧
      sessions w' = sessions w ∧
      (p = Fulfilled Js.VUndefined ↔ sig = WebSocket.CloseConfirmed) ∧
      (p = Pending ↔ sig = WebSocket.CloseNotYet) ∧
      (∀ err, p = Rejected err ↔ sig = WebSocket.CloseFailed err)
  | None => w' = w ∧ p = Fulfilled Js.VUndefined
  end.
Proof.
  unfold WebSocket.terminateWebSocketServer.
  destruct (wssMap w !! sessionId) as [server|] eqn:Hl; [|done].
  set (w2 := WebSocket.terminateClients (clients server) (emit (WssClose (wss_id server)) w)).
  assert (Ht : trace w2 = trace w ++ WssClose (wss_id server) :: map WsTerminate (clients server)).
  { unfold w2. rewrite terminateClients_trace. simpl. by rewrite <- app_assoc. }
  destruct (terminateClients_state (clients server) (emit (WssClose (wss_id server)) w))
    as (Hm & Hs & _ & _). fold w2 in Hm, Hs. simpl in Hm, Hs.
  simpl. rewrite Ht, Hm, Hs. repeat split.
  - intros ws Hin. apply elem_of_app. right. apply elem_of_cons. right.
    by apply list_elem_of_fmap_2.
  - apply lookup_delete_eq.
  - intros other Hne. by apply lookup_delete_ne.
  - intros Hp. destruct sig; simpl in Hp; congruence.
  - intros ->. done.
  - intros Hp. destruct sig; simpl in Hp; congruence.
  - intros ->. done.
  - intros Hp. destruct sig; simpl in Hp; congruence.
  - intros ->. done.
Qed.

(** ** WebSocket hub: upgrade *)

Section PathSegments.

Lemma split_cons_slash t :
  Js.split "/" (String "/" t) = EmptyString :: Js.split "/" t.
Proof. reflexivity. Qed.

Lemma split_nonempty sep s : Js.split sep s ≠ [].
Proof.
  destruct s as [|c s]; simpl; [done|].
  destruct (Ascii.eqb c sep); [done|].
  by destruct (Js.split sep s).
Qed.

(** The first element of the split is the text before the first slash. *)
Lemma split_segment sid rest :
  Spec.noSlash sid = true →
  (rest = EmptyString ∨ ∃ r, rest = String "/" r) →
  ∃ tl, Js.split "/" (sid +:+ rest) = sid :: tl.
Proof.
  intros Hn Hr. induction sid as [|c sid IH]; simpl.
  - destruct Hr as [->|[r ->]]; [by exists [] | by exists (Js.split "/" r)].
  - simpl in Hn. apply andb_prop in Hn as [Hc Hs].
    apply negb_true_iff in Hc. rewrite Hc.
    destruct (IH Hs) as [tl Htl].
    change (String.append sid rest) with (sid +:+ rest). rewrite Htl.
    by exists tl.
Qed.

Lemma first_segment s :
  ∃ sid rest, s = sid +:+ rest ∧ Spec.noSlash sid = true ∧
              (rest = EmptyString ∨ ∃ r, rest = String "/" r).
Proof.
  induction s as [|c s (sid & rest & Hs & Hn & Hr)].
  - exists EmptyString, EmptyString. auto.
  - destruct (Ascii.eqb c "/") eqn:Hc.
    + apply Ascii.eqb_eq in Hc as ->.
      exists EmptyString, (String "/" s). simpl. eauto.
    + exists (String c sid), rest. simpl. rewrite Hc, Hn. simpl.
      split; [by rewrite Hs | auto].
Qed.

Lemma prefix_cons a s1 s2 :
  String.prefix (String a s1) s2 = true ↔ ∃ s2', s2 = String a s2' ∧ String.prefix s1 s2' = true.
Proof.
  destruct s2 as [|b s2]; simpl.
  - split; [done | by intros (? & ? & _)].
  - destruct (ascii_dec a b) as [->|Hne].
    + split; [eauto | by intros (? & [= <-] & ?)].
    + split; [done | intros (? & [= <- _] & _); done].
Qed.

Lemma startsWith_ws path :
  Js.startsWith path "/ws/" = true ↔ ∃ t, path = "/ws/" +:+ t.
Proof.
  unfold Js.startsWith. split.
  - intros (p1 & -> & (p2 & -> & (p3 & -> & (p4 & -> & _)%prefix_cons)%prefix_cons)%prefix_cons)%prefix_cons.
    by exists p4.
  - intros [t ->]. simpl.
    repeat (apply prefix_cons; eexists; split; [reflexivity|]).
    by destruct t.
Qed.

Lemma split_ws t :
  Js.split "/" ("/ws/" +:+ t) = EmptyString :: "ws"%string :: Js.split "/" t.
Proof. reflexivity. Qed.

(** The session id of a path under [/ws/] is what the code extracts. *)
Lemma wsPath_extract path sessionId :
  Spec.wsPath path sessionId →
  Js.startsWith path "/ws/" = true ∧ Js.split "/" path !! 2%nat = Some sessionId.
Proof.
  intros (Hn & rest & -> & Hr). split.
  - apply startsWith_ws. eauto.
  - rewrite split_ws. destruct (split_segment sessionId rest Hn Hr) as [tl ->]. done.
Qed.

Lemma startsWith_wsPath path :
  Js.startsWith path "/ws/" = true →
  ∃ sessionId, Spec.wsPath path sessionId.
Proof.
  intros [t ->]%startsWith_ws.
  destruct (first_segment t) as (sid & rest & -> & Hn & Hr).
  exists sid. split; [done|]. by exists rest.
Qed.

End PathSegments.

Lemma setAdd_elem c cs : c ∈ WebSocket.setAdd c cs.
Proof.
  unfold WebSocket.setAdd. case_bool_decide; [done|].
  apply elem_of_app. right. by apply list_elem_of_singleton.
Qed.

Lemma setAdd_mono c c' cs : c' ∈ cs → c' ∈ WebSocket.setAdd c cs.
Proof.
  unfold WebSocket.setAdd. intros Hin. case_bool_decide; [done|].
  apply elem_of_app. by left.
Qed.

(** C8, as amended.  For an upgrade request whose URL the platform can
    parse, [handleUpgrade] returns normally.  If the path is
    [/ws/<sessionId>] (followed or not by further segments) and the
    session id has a hub entry, the socket is handed to that entry's
    acceptor; when the handshake succeeds the connection joins the
    entry's subscribers, and when the acceptor refuses it the hub map
    stays as it was.  Otherwise (the path is not under [/ws/], or the
    extracted session id has no entry) the only thing done is to destroy
    the socket: nothing is written to it, whatever the reason. *)
Theorem handleUpgrade_accepts_or_destroys (req : WebSocket.request) (path : string)
    (socket : conn) (w : world) :
  WebSocket.parsed req = WebSocket.UrlPathname path →
  let '(w', r) := WebSocket.handleUpgrade req socket w in
  r = WebSocket.Returned ∧
  (∀ sessionId server,
     Spec.wsPath path sessionId →
     wssMap w !! sessionId = Some server →
     (WebSocket.handshake req = true →
      ∃ server',
        wssMap w' !! sessionId = Some server' ∧
        wss_id server' = wss_id server ∧
        socket ∈ clients server' ∧
        (∀ c, c ∈ clients server → c ∈ clients server') ∧
        trace w' = trace w ++
          [WssHandleUpgrade (wss_id server) socket;
           LogDebug (WebSocket.ctxSession sessionId) "WebSocket connection established"]) ∧
     (WebSocket.handshake req = false →
      w' = emit (WssHandleUpgrade (wss_id server) socket) w)) ∧
  (Js.startsWith path "/ws/" = false →
     w' = emit (SocketDestroy socket) w) ∧
  ((∀ sessionId, Spec.wsPath path sessionId → wssMap w !! sessionId = None) →
     w' = emit (SocketDestroy socket) w ∧
     trace w' = trace w ++ [SocketDestroy socket] ∧
     wssMap w' = wssMap w).
Proof.
  intros Hparsed. unfold WebSocket.handleUpgrade. rewrite Hparsed.
  split; [done|]. split; [|split].
  - intros sessionId server Hp Hl.
    apply wsPath_extract in Hp as [Hs Hx]. rewrite Hs, Hx, Hl.
    unfold WebSocket.acceptUpgrade. split; intros ->; [|done].
    eexists. split; [apply lookup_insert_eq|]. simpl.
    repeat split.
    + apply setAdd_elem.
    + intros c. apply setAdd_mono.
    + by rewrite <- app_assoc.
  - by intros ->.
  - intros Hnone.
    match goal with |- ?x = _ ∧ _ =>
      assert (x = emit (SocketDestroy socket) w) as ->; [|done] end.
    destruct (Js.startsWith path "/ws/") eqn:Hs; [|done].
    destruct (startsWith_wsPath _ Hs) as [sid Hp].
    destruct (wsPath_extract _ _ Hp) as [_ ->].
    by rewrite (Hnone sid Hp).
Qed.

(** C8 as stated fails.  A request for [/ws/abc], a session with an
    entry, whose handshake the acceptor refuses is not added to the
    subscribers of the session.  And a request with the target [//],
    which the URL constructor rejects, makes [handleUpgrade] throw before
    it accepts or destroys anything. *)
Lemma handleUpgrade_not_as_stated :
  (Spec.wsPath "/ws/abc" "abc" ∧
   wssMap Sample.hubAbc !! "abc"%string
     = Some {| wss_id := 0%nat; clients := [4%nat; 5%nat] |} ∧
   wssMap (WebSocket.handleUpgrade Sample.reqAbcRefused 7%nat Sample.hubAbc).1 !! "abc"%string
     = Some {| wss_id := 0%nat; clients := [4%nat; 5%nat] |}) ∧
  (WebSocket.handleUpgrade Sample.reqBadTarget 7%nat Sample.hubAbc
     = (Sample.hubAbc, WebSocket.Threw "Invalid URL") ∧
   SocketDestroy 7%nat ∉ trace (WebSocket.handleUpgrade Sample.reqBadTarget 7%nat
                                  Sample.hubAbc).1).
Proof.
  split; [split; [|split]|split].
  - split; [reflexivity|]. exists EmptyString. split; [reflexivity | by left].
  - reflexivity.
  - reflexivity.
  - reflexivity.
  - simpl. apply not_elem_of_nil.
Qed.

(** ** Websocket mode disabled *)

Section WebSocketDisabled.

Variable cfg : config.
Hypothesis disabled : enableWebSocket cfg = false.

Lemma hubStep_disabled w c :
  wssMap w = ∅ → Server.hubStep cfg w c = w.
Proof using disabled.
  intros He. destruct c as [sid|sid sig|sid dt data|req socket]; simpl.
  - by apply initWebSocketServer_disabled.
  - unfold WebSocket.terminateWebSocketServer. by rewrite He, lookup_empty.
  - unfold WebSocket.triggerWebSocket. by rewrite He, lookup_empty.
  - unfold Server.onUpgrade, Server.upgradeListener. by rewrite disabled.
Qed.

Lemma hubRun_disabled calls w :
  wssMap w = ∅ → Server.hubRun cfg calls w = w.
Proof using disabled.
  unfold Server.hubRun. revert w.
  induction calls as [|c calls IH]; intros w He; simpl; [done|].
  rewrite hubStep_disabled by done. by apply IH.
Qed.

End WebSocketDisabled.

(** C10, as amended.  With websocket mode disabled,
    [initWebSocketServer] never inserts an entry; so the hub map stays
    empty through every run of the process and [triggerWebSocket] sends
    nothing for any session id and event.  The server installs no
    upgrade listener in that mode: an incoming upgrade request does not
    reach [handleUpgrade], whose [socket.destroy()] is never run for it,
    and is passed to the HTTP application like any other request. *)
Theorem websocket_disabled_hub_inert (cfg : config) :
  enableWebSocket cfg = false →
  (∀ sessionId w, WebSocket.initWebSocketServer cfg sessionId w = w) ∧
  (∀ calls, Server.hubRun cfg calls initialWorld = initialWorld) ∧
  (∀ calls sessionId dataType data,
     let w := Server.hubRun cfg calls initialWorld in
     wssMap w = ∅ ∧
     WebSocket.triggerWebSocket sessionId dataType data w = w) ∧
  Server.upgradeListener cfg = None ∧
  (∀ req socket w, Server.onUpgrade cfg req socket w = (w, Server.ToApplication)).
Proof.
  intros Hd.
  assert (Hrun : ∀ calls, Server.hubRun cfg calls initialWorld = initialWorld)
    by (intros; by apply hubRun_disabled).
  repeat split.
  - intros. by apply initWebSocketServer_disabled.
  - done.
  - by rewrite Hrun.
  - rewrite Hrun. unfold WebSocket.triggerWebSocket. simpl. by rewrite lookup_empty.
  - unfold Server.upgradeListener. by rewrite Hd.
  - intros. unfold Server.onUpgrade, Server.upgradeListener. by rewrite Hd.
Qed.

Lemma websocket_disabled_hub_inert_witness :
  enableWebSocket Sample.cfgNoWebSocket = false ∧
  Server.onUpgrade Sample.cfgNoWebSocket Sample.reqAbc 7%nat initialWorld
    = (initialWorld, Server.ToApplication).
Proof.
  split; [reflexivity|].
  apply (websocket_disabled_hub_inert Sample.cfgNoWebSocket). reflexivity.
Defined.

(** C10 as stated fails: with websocket mode disabled an incoming upgrade
    request for [/ws/abc] finds no listener; it goes to the HTTP
    application and its socket is not destroyed. *)
Lemma websocket_disabled_upgrade_not_destroyed :
  enableWebSocket Sample.cfgNoWebSocket = false ∧
  (Server.onUpgrade Sample.cfgNoWebSocket Sample.reqAbc 7%nat initialWorld).2
    = Server.ToApplication ∧
  SocketDestroy 7%nat
    ∉ trace (Server.onUpgrade Sample.cfgNoWebSocket Sample.reqAbc 7%nat initialWorld).1.
Proof.
  split; [reflexivity|]. split; [reflexivity|]. vm_compute. apply not_elem_of_nil.
Qed.

(** ** Callback Filter *)

Lemma includes_elem_of arr x : Js.includes arr x = true ↔ x ∈ arr.
Proof.
  induction arr as [|y arr IH]; simpl.
  - split; [done | by intros ?%not_elem_of_nil].
  - rewrite orb_true_iff, IH, String.eqb_eq, elem_of_cons.
    split; intros [?|?]; subst; auto.
Qed.

(** C2, as amended.  The eligibility check has no effect on the world
    and returns a promise, not a boolean: the promise is fulfilled, with
    [undefined], exactly when the dataType is not in the suppression set,
    and it stays pending exactly when the dataType is in the set; the
    boolean of the specification is whether the promise is settled. *)
Theorem checkIfEventisEnabled_filter (cfg : config) (dataType : string) :
  (dataType ∉ disabledCallbacks cfg ↔
     Utils.checkIfEventisEnabled cfg dataType = Fulfilled Js.VUndefined) ∧
  (dataType ∈ disabledCallbacks cfg ↔
     Utils.checkIfEventisEnabled cfg dataType = Pending) ∧
  settled (Utils.checkIfEventisEnabled cfg dataType) = Spec.isEnabled cfg dataType.
Proof.
  unfold Utils.checkIfEventisEnabled, Spec.isEnabled.
  destruct (Js.includes (disabledCallbacks cfg) dataType) eqn:Hi; simpl.
  - apply includes_elem_of in Hi.
    rewrite bool_decide_eq_true_2 by done. naive_solver.
  - assert (dataType ∉ disabledCallbacks cfg) as Hn.
    { intros Hin%includes_elem_of. congruence. }
    rewrite bool_decide_eq_false_2 by done. naive_solver.
Qed.

(** C2 as stated fails: for a suppressed dataType the check does not
    return [false] (its promise never settles), and for an enabled one it
    does not return [true] (its promise is fulfilled with [undefined]). *)
Lemma checkIfEventisEnabled_not_boolean :
  Spec.isEnabled Sample.cfgMessageOff "message" = false ∧
  Utils.checkIfEventisEnabled Sample.cfgMessageOff "message" ≠ Fulfilled (Js.VBool false) ∧
  Spec.isEnabled Sample.cfgMessageOff "qr" = true ∧
  Utils.checkIfEventisEnabled Sample.cfgMessageOff "qr" ≠ Fulfilled (Js.VBool true).
Proof.
  repeat split; try reflexivity; vm_compute; discriminate.
Qed.

(** C9.  For an event type in the suppression list the promise returned
    by [checkIfEventisEnabled] never settles: it is neither fulfilled nor
    rejected, so a continuation chained on it with [then] is never run,
    and neither is a rejection handler: the chained call leaves the world
    as it was and its own promise pending. *)
Theorem checkIfEventisEnabled_never_settles (cfg : config) (event : string) :
  Js.includes (disabledCallbacks cfg) event = true →
  Utils.checkIfEventisEnabled cfg event = Pending ∧
  (∀ v, Utils.checkIfEventisEnabled cfg event ≠ Fulfilled v) ∧
  (∀ reason, Utils.checkIfEventisEnabled cfg event ≠ Rejected reason) ∧
  (∀ onFulfilled w,
     Utils.thenDo (Utils.checkIfEventisEnabled cfg event) onFulfilled w = (w, Pending)) ∧
  (∀ onRejected w,
     Utils.catchDo (Utils.checkIfEventisEnabled cfg event) onRejected w = (w, Pending)).
Proof.
  intros Hi. unfold Utils.checkIfEventisEnabled. rewrite Hi. simpl. done.
Qed.

Lemma checkIfEventisEnabled_never_settles_witness :
  Utils.checkIfEventisEnabled Sample.cfgMessageOff "message" = Pending.
Proof.
  apply (checkIfEventisEnabled_never_settles Sample.cfgMessageOff "message").
  reflexivity.
Defined.

(** ** Webhook Dispatcher *)

Lemma triggerWebhook_unfold cfg webhookURL sessionId dataType data outcome w :
  Utils.triggerWebhook cfg webhookURL sessionId dataType data outcome w =
  ({| sessions := sessions w; wssMap := wssMap w; nextWss := nextWss w;
      nextClient := nextClient w;
      trace := trace w ++
        HttpPost webhookURL
          {| env_dataType := dataType; env_data := data; env_sessionId := sessionId |}
          [("x-api-key"%string, globalApiKey cfg)]
        :: Spec.webhookLog webhookURL sessionId dataType data outcome |},
   Utils.Normal Js.VUndefined).
Proof.
  unfold Utils.triggerWebhook.
  destruct outcome; simpl; f_equal; apply world_eq; simpl; try done;
    by rewrite <- app_assoc.
Qed.

(** C4.  [triggerWebhook] issues exactly one HTTP POST, to the given
    url, with body [{ dataType, data, sessionId }] and the API key in the
    [x-api-key] header; nothing after it is a further post (no retry).
    When the delivery fails, one error line is logged that carries the
    session id, the event type and the error.  Whatever the fate of the
    post, the call returns [undefined] normally, and it changes neither
    the session registry nor the hub. *)
Theorem triggerWebhook_fire_and_forget (cfg : config)
    (webhookURL sessionId dataType : string) (data : Js.value)
    (outcome : Utils.post_outcome) (w : world) :
  let '(w', r) := Utils.triggerWebhook cfg webhookURL sessionId dataType data outcome w in
  r = Utils.Normal Js.VUndefined ∧
  sessions w' = sessions w ∧
  wssMap w' = wssMap w ∧
  ∃ logs,
    trace w' = trace w ++
      HttpPost webhookURL
        {| env_dataType := dataType; env_data := data; env_sessionId := sessionId |}
        [("x-api-key"%string, globalApiKey cfg)] :: logs ∧
    Forall (fun e => Spec.isHttpPost e = false) logs ∧
    (∀ err, outcome = Utils.PostFailed err →
       ∃ ctx, logs = [LogError ctx ("Failed to send new webhook message to " +:+ webhookURL)] ∧
              log_sessionId ctx = Some sessionId ∧
              log_dataType ctx = Some dataType ∧
              log_err ctx = Some err).
Proof.
  rewrite triggerWebhook_unfold. simpl. repeat split.
  exists (Spec.webhookLog webhookURL sessionId dataType data outcome).
  repeat split.
  - destruct outcome; simpl; repeat constructor.
  - intros err ->. simpl. eexists. by repeat split.
Qed.

(** ** Dispatch pipeline *)

Lemma triggerWebSocket_trace sessionId dataType data w :
  ∃ cs, trace (WebSocket.triggerWebSocket sessionId dataType data w) =
        trace w ++ map (fun ws => WsSend ws {| env_dataType := dataType; env_data := data;
                                               env_sessionId := sessionId |}) cs.
Proof.
  unfold WebSocket.triggerWebSocket. destruct (wssMap w !! sessionId) as [server|].
  - exists (clients server). apply sendAll_trace.
  - exists []. simpl. by rewrite app_nil_r.
Qed.

Section Suppression.

Variable cfg : config.
Variable dataType : string.
Hypothesis suppressed : dataType ∈ disabledCallbacks cfg.

Lemma onClientEvent_suppressed sessionId ev outcome w :
  ∃ new, trace (Sessions.onClientEvent cfg sessionId ev outcome w) = trace w ++ new ∧
         Forall (fun e => Spec.isDispatchOf dataType e = false) new.
Proof using suppressed.
  unfold Sessions.onClientEvent.
  destruct (sessions w !! sessionId) as [s|]; [|exists []; by rewrite app_nil_r].
  unfold Utils.checkIfEventisEnabled.
  destruct (Js.includes (disabledCallbacks cfg) (Sessions.ev_dataType ev)) eqn:Hi; simpl.
  { exists []. by rewrite app_nil_r. }
  assert (Hne : String.eqb (Sessions.ev_dataType ev) dataType = false).
  { apply String.eqb_neq. intros Heq. apply includes_elem_of in suppressed. congruence. }
  rewrite triggerWebhook_unfold.
  match goal with |- context [WebSocket.triggerWebSocket ?a ?b ?c ?d] =>
    destruct (triggerWebSocket_trace a b c d) as [cs ->] end.
  simpl. rewrite <- app_assoc. eexists. split; [reflexivity|].
  apply Forall_app. split.
  - constructor; [done|]. destruct outcome; simpl; repeat constructor.
  - apply Forall_fmap, Forall_forall. intros ws _. done.
Qed.

Lemma run_suppressed evs w :
  ∃ new, trace (Sessions.run cfg evs w) = trace w ++ new ∧
         Forall (fun e => Spec.isDispatchOf dataType e = false) new.
Proof using suppressed.
  unfold Sessions.run. revert w.
  induction evs as [|[[sessionId ev] outcome] evs IH]; intros w; simpl.
  - exists []. by rewrite app_nil_r.
  - destruct (IH (Sessions.onClientEvent cfg sessionId ev outcome w)) as (new2 & -> & H2).
    destruct (onClientEvent_suppressed sessionId ev outcome w) as (new1 & -> & H1).
    exists (new1 ++ new2). rewrite <- app_assoc. split; [done|].
    by apply Forall_app.
Qed.

End Suppression.

(** C3.  If a dataType (such as [message]) is in the suppression set,
    then whatever client events the supervisor handles during the life of
    the process, for whatever sessions and with whatever webhook fates,
    nothing it adds to the trace is a webhook POST or a WebSocket message
    for that dataType: for a suppressed event the pipeline reaches neither
    [triggerWebhook] nor [triggerWebSocket]. *)
Theorem suppressed_dataType_never_dispatched (cfg : config) (dataType : string)
    (evs : list (string * Sessions.client_event * Utils.post_outcome)) (w : world) :
  dataType ∈ disabledCallbacks cfg →
  ∃ new, trace (Sessions.run cfg evs w) = trace w ++ new ∧
         Forall (fun e => Spec.isDispatchOf dataType e = false) new.
Proof. intros H. by apply run_suppressed. Qed.

Lemma suppressed_dataType_never_dispatched_witness :
  ∃ new, trace (Sessions.run Sample.cfgMessageOff Sample.someEvents Sample.oneSession)
           = trace Sample.oneSession ++ new ∧
         Forall (fun e => Spec.isDispatchOf "message" e = false) new.
Proof.
  apply (suppressed_dataType_never_dispatched Sample.cfgMessageOff "message").
  apply includes_elem_of. reflexivity.
Defined.

(** The run of the example does dispatch the event that is not
    suppressed, to the webhook and to both subscribers. *)
Example run_someEvents :
  trace (Sessions.run Sample.cfgMessageOff Sample.someEvents Sample.oneSession) =
  let body := {| env_dataType := "message_ack"; env_data := Js.VNum 3;
                 env_sessionId := "abc" |} in
  [HttpPost "http://hook" body [("x-api-key"%string, "secret"%string)];
   LogError (Utils.ctxEvent "abc" "message_ack" (Some "ECONNREFUSED"%string) (Js.VNum 3))
            "Failed to send new webhook message to http://hook";
   WsSend 4%nat body; WsSend 5%nat body].
Proof. vm_compute. reflexivity. Qed.

(** ** Session registry: create *)

Lemma entriesFor_Some sessionId (reg : gmap string Session) s :
  reg !! sessionId = Some s → Spec.entriesFor sessionId reg = 1%nat.
Proof.
  intros Hl. unfold Spec.entriesFor.
  assert (filter (fun kv : string * Session => kv.1 = sessionId) reg = {[sessionId := s]}) as ->;
    [|apply map_size_singleton].
  apply map_eq. intros i. destruct (decide (i = sessionId)) as [->|Hne].
  - rewrite lookup_singleton_eq. by apply map_lookup_filter_Some_2.
  - rewrite lookup_singleton_ne by done.
    apply map_lookup_filter_None_2. right. intros x _. done.
Qed.

Lemma entriesFor_None sessionId (reg : gmap string Session) :
  reg !! sessionId = None → Spec.entriesFor sessionId reg = 0%nat.
Proof.
  intros Hl. unfold Spec.entriesFor.
  assert (filter (fun kv : string * Session => kv.1 = sessionId) reg = ∅) as ->;
    [|apply map_size_empty].
  apply map_eq. intros i. rewrite lookup_empty.
  apply map_lookup_filter_None_2.
  destruct (decide (i = sessionId)) as [->|Hne]; [by left|].
  right. intros x _. done.
Qed.

Section Create.

Variable baseWebhookURL : string.

Lemma create_conflict sessionId override w :
  Sessions.hasActive w sessionId = true →
  Sessions.create baseWebhookURL sessionId override w = (w, Sessions.Conflict).
Proof. intros H. unfold Sessions.create. by rewrite H. Qed.

Lemma create_hasActive sessionId override w :
  Sessions.hasActive (Sessions.create baseWebhookURL sessionId override w).1 sessionId = true.
Proof.
  unfold Sessions.create.
  destruct (Sessions.hasActive w sessionId) eqn:H; simpl; [done|].
  unfold Sessions.hasActive. simpl. by rewrite lookup_insert_eq.
Qed.

Lemma hasActive_entry w sessionId :
  Sessions.hasActive w sessionId = true →
  ∃ s, sessions w !! sessionId = Some s ∧ Sessions.active s = true.
Proof.
  unfold Sessions.hasActive. destruct (sessions w !! sessionId); [eauto | done].
Qed.

Lemma setupSession_create sessionId w :
  (Sessions.setupSession baseWebhookURL sessionId w).1 =
  (Sessions.create baseWebhookURL sessionId None w).1.
Proof.
  unfold Sessions.setupSession.
  destruct (Sessions.create baseWebhookURL sessionId None w) as [w' []]; done.
Qed.

Lemma waitForNestedObject_state env path mw iv w :
  sessions (Utils.waitForNestedObject env path mw iv w).1 = sessions w ∧
  wssMap (Utils.waitForNestedObject env path mw iv w).1 = wssMap w.
Proof.
  unfold Utils.waitForNestedObject.
  by destruct (Utils.checkObject _ _ _ _ _ _ _).
Qed.

Lemma startSession_sessions sessionId env w :
  sessions (SessionController.startSession baseWebhookURL sessionId env w) =
  sessions (Sessions.create baseWebhookURL sessionId None w).1.
Proof.
  unfold SessionController.startSession. rewrite <- setupSession_create.
  destruct (Sessions.setupSession baseWebhookURL sessionId w) as [w1 ret]. simpl.
  destruct (negb (Sessions.success ret)); simpl; [done|].
  pose proof (waitForNestedObject_state env "pupPage" None None w1) as [Hs _].
  destruct (Utils.waitForNestedObject env "pupPage" None None w1) as [w2 r].
  simpl in Hs. by destruct r.
Qed.

Lemma hasActive_sessions w w' sessionId :
  sessions w' = sessions w →
  Sessions.hasActive w' sessionId = Sessions.hasActive w sessionId.
Proof. unfold Sessions.hasActive. by intros ->. Qed.

Lemma startSession_hasActive sessionId env w :
  Sessions.hasActive (SessionController.startSession baseWebhookURL sessionId env w)
    sessionId = true.
Proof.
  rewrite (hasActive_sessions _ _ _ (startSession_sessions sessionId env w)).
  apply create_hasActive.
Qed.

Lemma startSession_conflict sessionId env w :
  Sessions.hasActive w sessionId = true →
  SessionController.startSession baseWebhookURL sessionId env w =
  emit (ResStatusJson 422 false "Conflict") w.
Proof.
  intros H. unfold SessionController.startSession, Sessions.setupSession.
  by rewrite create_conflict.
Qed.

(** C1.  The registry holds at most one entry per session id.  A create
    request for an id that has an active session fails with [Conflict]
    and leaves the world, hence the registry and every session, as it
    was.  So two create requests for the same id in a row leave exactly
    one entry and the second answers [Conflict]; through [startSession]
    the second request is answered with status 422 and changes nothing
    else. *)
Theorem create_twice_conflict (sessionId : string) (w : world) :
  (Spec.entriesFor sessionId (sessions w) ≤ 1)%nat ∧
  (∀ override, Sessions.hasActive w sessionId = true →
     Sessions.create baseWebhookURL sessionId override w = (w, Sessions.Conflict)) ∧
  (∀ override1 override2,
     let w1 := (Sessions.create baseWebhookURL sessionId override1 w).1 in
     Sessions.create baseWebhookURL sessionId override2 w1 = (w1, Sessions.Conflict) ∧
     Spec.entriesFor sessionId (sessions w1) = 1%nat) ∧
  (∀ env1 env2,
     let w1 := SessionController.startSession baseWebhookURL sessionId env1 w in
     let w2 := SessionController.startSession baseWebhookURL sessionId env2 w1 in
     w2 = emit (ResStatusJson 422 false "Conflict") w1 ∧
     sessions w2 = sessions w1 ∧
     Spec.entriesFor sessionId (sessions w2) = 1%nat).
Proof.
  repeat split.
  - destruct (sessions w !! sessionId) as [s|] eqn:Hl.
    + by rewrite (entriesFor_Some _ _ s).
    + rewrite entriesFor_None by done. lia.
  - intros override. apply create_conflict.
  - apply create_conflict, create_hasActive.
  - destruct (hasActive_entry _ _ (create_hasActive sessionId override1 w)) as (s & Hs & _).
    by apply (entriesFor_Some _ _ s).
  - apply startSession_conflict, startSession_hasActive.
  - by rewrite startSession_conflict by apply startSession_hasActive.
  - destruct (hasActive_entry _ _ (startSession_hasActive sessionId env2
               (SessionController.startSession baseWebhookURL sessionId env1 w)))
      as (s & Hs & _).
    by apply (entriesFor_Some _ _ s).
Qed.

End Create.

Lemma create_twice_conflict_witness :
  Sessions.hasActive Sample.oneSession "abc" = true ∧
  Sessions.create "http://base" "abc" None Sample.oneSession
    = (Sample.oneSession, Sessions.Conflict).
Proof.
  split; [reflexivity|].
  apply (create_twice_conflict "http://base" "abc" Sample.oneSession). reflexivity.
Defined.

(** ** Readiness wait *)

Section Polling.

Variable env : Utils.poll_env.
Variable nestedPath : string.
Variables maxWaitTime interval : Z.

Local Abbreviation delay := (Utils.setTimeoutDelay interval).
Local Abbreviation pollTime := (Utils.pollTime env interval).
Local Abbreviation checkObject := (Utils.checkObject env nestedPath maxWaitTime interval).
Local Abbreviation continues := (Utils.continues env nestedPath maxWaitTime interval).
Local Abbreviation truthyAt t := (Js.truthy (Utils.nested (Utils.rootAt env t) nestedPath)).

Lemma setTimeoutDelay_pos : 1 <= delay.
Proof.
  unfold Utils.setTimeoutDelay.
  destruct (interval <? 1) eqn:H1; simpl; [lia|].
  destruct (2147483647 <? interval); lia.
Qed.

Lemma pollTime_lower k : Utils.start env + Z.of_nat k * delay <= pollTime k.
Proof.
  induction k as [|k IH]; simpl Utils.pollTime; [lia|].
  pose proof setTimeoutDelay_pos. nia.
Qed.

Lemma pollTime_exact k :
  (∀ j, Utils.lateness env j = 0%nat) →
  pollTime k = Utils.start env + Z.of_nat k * delay.
Proof.
  intros Hl. induction k as [|k IH]; simpl Utils.pollTime; [lia|].
  rewrite Hl, IH. lia.
Qed.

(** What a result of [checkObject] started at run [k] says about the
    runs it went through. *)
Lemma checkObject_runs fuel k :
  match checkObject fuel k (pollTime k) with
  | Utils.StillWaiting => ∀ j, (k ≤ j < k + fuel)%nat → continues j
  | Utils.ResolvedAt t =>
      ∃ n, (k ≤ n < k + fuel)%nat ∧ t = pollTime n ∧ truthyAt t = true ∧
           ∀ j, (k ≤ j < n)%nat → continues j
  | Utils.RejectedAt t msg =>
      ∃ n, (k ≤ n < k + fuel)%nat ∧ t = pollTime n ∧ truthyAt t = false ∧
           maxWaitTime < t - Utils.start env ∧
           msg = "Timeout waiting for nested object"%string ∧
           ∀ j, (k ≤ j < n)%nat → continues j
  end.
Proof.
  revert k. induction fuel as [|fuel IH]; intros k; simpl.
  - intros j Hj. lia.
  - destruct (truthyAt (pollTime k)) eqn:Ht.
    { exists k. split; [lia|]. split; [done|]. split; [done|]. intros; lia. }
    destruct (maxWaitTime <? pollTime k - Utils.start env) eqn:Hm.
    { apply Z.ltb_lt in Hm. exists k.
      split; [lia|]. do 4 (split; [done|]). intros; lia. }
    apply Z.ltb_ge in Hm.
    assert (Hk : continues k) by done.
    specialize (IH (S k)). simpl Utils.pollTime in IH.
    destruct (checkObject fuel (S k) _) as [|t|t msg].
    + intros j Hj. destruct (decide (j = k)) as [->|]; [done|]. apply IH. lia.
    + destruct IH as (n & Hn & -> & Htn & Hc). exists n.
      split; [lia|]. do 2 (split; [done|]).
      intros j Hj. destruct (decide (j = k)) as [->|]; [done|]. apply Hc. lia.
    + destruct IH as (n & Hn & -> & Htn & Hmn & -> & Hc).
      exists n. split; [lia|]. do 4 (split; [done|]).
      intros j Hj. destruct (decide (j = k)) as [->|]; [done|]. apply Hc. lia.
Qed.

(** More fuel does not change a result that is there. *)
Lemma checkObject_fuel fuel fuel' k now :
  checkObject fuel k now ≠ Utils.StillWaiting → (fuel ≤ fuel')%nat →
  checkObject fuel' k now = checkObject fuel k now.
Proof.
  revert fuel' k now. induction fuel as [|fuel IH]; intros fuel' k now Hr Hle; simpl in *.
  - done.
  - destruct fuel' as [|fuel']; [lia|]. simpl.
    destruct (truthyAt now); [done|].
    destruct (maxWaitTime <? now - Utils.start env); [done|].
    apply IH; [done|lia].
Qed.

(** The run after the last one within the bound is past the bound. *)
Lemma budget_past_bound :
  maxWaitTime <
    pollTime (Utils.pollBudget maxWaitTime interval - 1) - Utils.start env.
Proof.
  unfold Utils.pollBudget.
  pose proof setTimeoutDelay_pos as Hd.
  set (q := Z.max 0 maxWaitTime / delay).
  assert (0 <= q) by (apply Z.div_pos; lia).
  replace (Z.to_nat q + 2 - 1)%nat with (S (Z.to_nat q)) by lia.
  pose proof (pollTime_lower (S (Z.to_nat q))) as Hl.
  pose proof (Z.div_mod (Z.max 0 maxWaitTime) delay ltac:(lia)) as Hdm.
  pose proof (Z.mod_pos_bound (Z.max 0 maxWaitTime) delay ltac:(lia)) as Hmod.
  fold q in Hdm. nia.
Qed.

Lemma checkObject_settles :
  checkObject (Utils.pollBudget maxWaitTime interval) 0 (Utils.start env)
    ≠ Utils.StillWaiting.
Proof.
  intros Hs.
  pose proof (checkObject_runs (Utils.pollBudget maxWaitTime interval) 0) as Hr.
  simpl Utils.pollTime in Hr. rewrite Hs in Hr.
  destruct (Hr (Utils.pollBudget maxWaitTime interval - 1)%nat) as [_ Hle].
  { unfold Utils.pollBudget. lia. }
  pose proof budget_past_bound. lia.
Qed.

End Polling.

Lemma checkObject_settled_by env nestedPath maxWaitTime interval n t :
  (∀ k, Utils.lateness env k = 0%nat) →
  (∀ j, (j < n)%nat → Utils.continues env nestedPath maxWaitTime interval j) →
  t = Utils.pollTime env interval n →
  t <= Utils.start env + Z.max 0 maxWaitTime + Utils.setTimeoutDelay interval.
Proof.
  intros Hl Hc ->. pose proof (setTimeoutDelay_pos interval) as Hd.
  destruct n as [|n]; simpl Utils.pollTime; [lia|].
  destruct (Hc n ltac:(lia)) as [_ Hn]. rewrite Hl. lia.
Qed.

(** C5, as amended.  The readiness wait polls the nested field at a
    fixed interval and always settles, after at most [pollBudget] runs
    of [checkObject] whatever fuel is given beyond that.  It resolves at
    the first run at which the nested value is truthy (for a field that
    holds an object or [null]: non-null), and if no run up to then saw a
    truthy value it rejects with the timeout error, which it also logs,
    at the first run whose elapsed time exceeds the maximum wait
    (default 10000 ms, polled every 100 ms).  No run past the bound
    leaves it pending; with timers that fire on time it is settled
    within the bound plus one interval. *)
Theorem waitForNestedObject_settles (env : Utils.poll_env) (nestedPath : string)
    (maxWaitTime interval : option Z) (w : world) :
  let mw := default 10000 maxWaitTime in
  let iv := default 100 interval in
  let '(w', r) := Utils.waitForNestedObject env nestedPath maxWaitTime interval w in
  (∃ n, (n < Utils.pollBudget mw iv)%nat ∧
     (∀ j, (j < n)%nat → Utils.continues env nestedPath mw iv j) ∧
     let t := Utils.pollTime env iv n in
     ((Js.truthy (Utils.nested (Utils.rootAt env t) nestedPath) = true ∧
       r = Utils.ResolvedAt t ∧ w' = w) ∨
      (Js.truthy (Utils.nested (Utils.rootAt env t) nestedPath) = false ∧
       mw < t - Utils.start env ∧
       r = Utils.RejectedAt t "Timeout waiting for nested object" ∧
       w' = emit (LogError Utils.ctxNone "Timed out waiting for nested object") w))) ∧
  (∀ fuel, (Utils.pollBudget mw iv ≤ fuel)%nat →
     Utils.checkObject env nestedPath mw iv fuel 0 (Utils.start env) = r) ∧
  ((∀ k, Utils.lateness env k = 0%nat) →
     Utils.settledBy r (Utils.start env + Z.max 0 mw + Utils.setTimeoutDelay iv) = true).
Proof.
  simpl. unfold Utils.waitForNestedObject.
  set (mw := default 10000 maxWaitTime). set (iv := default 100 interval).
  pose proof (checkObject_runs env nestedPath mw iv (Utils.pollBudget mw iv) 0) as Hr.
  pose proof (checkObject_settles env nestedPath mw iv) as Hs.
  pose proof (fun fuel => checkObject_fuel env nestedPath mw iv
                (Utils.pollBudget mw iv) fuel 0 (Utils.start env) Hs) as Hf.
  simpl Utils.pollTime in Hr.
  destruct (Utils.checkObject env nestedPath mw iv (Utils.pollBudget mw iv) 0
              (Utils.start env)) as [|t|t msg]; [done| |].
  - destruct Hr as (n & Hn & -> & Ht & Hc). split; [|split].
    + exists n. split; [lia|]. split; [intros; apply Hc; lia|]. left. done.
    + done.
    + intros Hl. simpl. apply Z.leb_le.
      apply (checkObject_settled_by env nestedPath mw iv n); [done| |done].
      intros; apply Hc; lia.
  - destruct Hr as (n & Hn & -> & Ht & Hm & -> & Hc). split; [|split].
    + exists n. split; [lia|]. split; [intros; apply Hc; lia|]. right. done.
    + done.
    + intros Hl. simpl. apply Z.leb_le.
      apply (checkObject_settled_by env nestedPath mw iv n); [done| |done].
      intros; apply Hc; lia.
Qed.

Lemma waitForNestedObject_settles_witness :
  (∀ k, Utils.lateness Sample.envReady k = 0%nat) ∧
  Utils.waitForNestedObject Sample.envReady "pupPage" None None initialWorld
    = (initialWorld, Utils.ResolvedAt 300) ∧
  Utils.settledBy (Utils.ResolvedAt 300) (0 + Z.max 0 10000 + Utils.setTimeoutDelay 100) = true.
Proof.
  split; [reflexivity|]. split; [vm_compute; reflexivity|].
  apply (waitForNestedObject_settles Sample.envReady "pupPage" None None initialWorld).
  reflexivity.
Defined.

(** C5 as stated fails on two counts.  A nested value that is non-null
    but not truthy ([0]) does not resolve the wait, which times out.  And
    with the default arguments the timeout comes at the run after the
    bound: at 10050 ms, past the bound of 10000 ms, the wait is still
    pending. *)
Lemma waitForNestedObject_not_as_stated :
  (Js.nonNull (Utils.nested (Utils.rootAt Sample.envZero 0) "pupPage") = true ∧
   (Utils.waitForNestedObject Sample.envZero "pupPage" None None initialWorld).2
     = Utils.RejectedAt 10100 "Timeout waiting for nested object") ∧
  ((Utils.waitForNestedObject Sample.envNull "pupPage" None None initialWorld).2
     = Utils.RejectedAt 10100 "Timeout waiting for nested object" ∧
   10000 < 10050 - Utils.start Sample.envNull ∧
   Utils.settledBy
     (Utils.waitForNestedObject Sample.envNull "pupPage" None None initialWorld).2
     10050 = false).
Proof.
  repeat split; vm_compute; reflexivity.
Qed.

(** ** The theorems at concrete inputs *)

Lemma initWebSocketServer_idempotent_witness :
  wssMap Sample.hubAbc !! "abc"%string = Some {| wss_id := 0%nat; clients := [4%nat; 5%nat] |} ∧
  WebSocket.initWebSocketServer Sample.cfgMessageOff "abc" Sample.hubAbc = Sample.hubAbc.
Proof.
  split; [reflexivity|].
  apply (proj1 (initWebSocketServer_idempotent Sample.cfgMessageOff "abc" Sample.hubAbc)
           {| wss_id := 0%nat; clients := [4%nat; 5%nat] |}).
  reflexivity.
Defined.

Lemma terminateWebSocketServer_close_witness :
  let '(w', p) := WebSocket.terminateWebSocketServer "abc" WebSocket.CloseConfirmed
                    Sample.hubAbc in
  trace w' = [WssClose 0%nat; WsTerminate 4%nat; WsTerminate 5%nat] ∧
  wssMap w' !! "abc"%string = None ∧
  p = Fulfilled Js.VUndefined.
Proof.
  pose proof (terminateWebSocketServer_close "abc" WebSocket.CloseConfirmed Sample.hubAbc) as H.
  destruct (WebSocket.terminateWebSocketServer "abc" WebSocket.CloseConfirmed Sample.hubAbc)
    as [w' p].
  change (wssMap Sample.hubAbc !! "abc"%string)
    with (Some {| wss_id := 0%nat; clients := [4%nat; 5%nat] |}) in H.
  destruct H as (Ht & _ & Hm & _ & _ & Hp & _).
  split; [exact Ht|]. split; [exact Hm|]. apply Hp. reflexivity.
Defined.

Lemma handleUpgrade_accepts_or_destroys_witness :
  WebSocket.parsed Sample.reqAbc = WebSocket.UrlPathname "/ws/abc" ∧
  let '(w', r) := WebSocket.handleUpgrade Sample.reqAbc 7%nat Sample.hubAbc in
  r = WebSocket.Returned ∧
  ∃ server', wssMap w' !! "abc"%string = Some server' ∧ 7%nat ∈ clients server'.
Proof.
  split; [reflexivity|].
  pose proof (handleUpgrade_accepts_or_destroys Sample.reqAbc "/ws/abc" 7%nat Sample.hubAbc
                eq_refl) as H.
  destruct (WebSocket.handleUpgrade Sample.reqAbc 7%nat Sample.hubAbc) as [w' r].
  destruct H as (Hr & Ha & _). split; [exact Hr|].
  destruct (Ha "abc"%string {| wss_id := 0%nat; clients := [4%nat; 5%nat] |}) as [Hok _].
  - split; [reflexivity|]. exists EmptyString. split; [reflexivity | by left].
  - reflexivity.
  - destruct (Hok eq_refl) as (server' & Hl & _ & Hin & _).
    exists server'. split; [exact Hl | exact Hin].
Defined.

Lemma checkIfEventisEnabled_filter_witness :
  Utils.checkIfEventisEnabled Sample.cfgMessageOff "message" = Pending.
Proof.
  apply (proj1 (proj2 (checkIfEventisEnabled_filter Sample.cfgMessageOff "message"))).
  apply includes_elem_of. reflexivity.
Defined.

Lemma triggerWebhook_fire_and_forget_witness :
  let '(w', r) := Utils.triggerWebhook Sample.cfgMessageOff "http://hook" "abc" "qr"
                    (Js.VStr "code") (Utils.PostFailed "ECONNREFUSED") Sample.oneSession in
  r = Utils.Normal Js.VUndefined ∧ sessions w' = sessions Sample.oneSession.
Proof.
  pose proof (triggerWebhook_fire_and_forget Sample.cfgMessageOff "http://hook" "abc" "qr"
                (Js.VStr "code") (Utils.PostFailed "ECONNREFUSED") Sample.oneSession) as H.
  destruct (Utils.triggerWebhook Sample.cfgMessageOff "http://hook" "abc" "qr"
              (Js.VStr "code") (Utils.PostFailed "ECONNREFUSED") Sample.oneSession)
    as [w' r].
  destruct H as (Hr & Hs & _). split; [exact Hr | exact Hs].
Defined.

(** Some runs of the embedded code. *)

Example handleUpgrade_unknown_session :
  trace (WebSocket.handleUpgrade (Sample.reqTo "/ws/xyz") 7%nat Sample.hubAbc).1
    = [SocketDestroy 7%nat].
Proof. vm_compute. reflexivity. Qed.

Example handleUpgrade_other_path :
  trace (WebSocket.handleUpgrade (Sample.reqTo "/session/start/abc") 7%nat
           Sample.hubAbc).1
    = [SocketDestroy 7%nat].
Proof. vm_compute. reflexivity. Qed.

Example terminateWebSocketServer_unknown :
  WebSocket.terminateWebSocketServer "xyz" WebSocket.CloseNotYet Sample.hubAbc
    = (Sample.hubAbc, Fulfilled Js.VUndefined).
Proof. vm_compute. reflexivity. Qed.

Example startSession_twice :
  trace (SessionController.startSession "http://base" "abc" Sample.envReady
           (SessionController.startSession "http://base" "abc" Sample.envReady initialWorld))
    = [PersistIdentity "abc"; ClientInitialize 0%nat;
       ResStatusJson 200 true "Created"; ResStatusJson 422 false "Conflict"].
Proof. vm_compute. reflexivity. Qed.

Example startSession_timeout :
  trace (SessionController.startSession "http://base" "abc" Sample.envNull initialWorld)
    = [PersistIdentity "abc"; ClientInitialize 0%nat;
       LogError Utils.ctxNone "Timed out waiting for nested object";
       LogError (SessionController.ctxFailure "abc" "Timeout waiting for nested object")
                "Failed to start session";
       ResStatusJson 500 false "Timeout waiting for nested object"].
Proof. vm_compute. reflexivity. Qed.

(** * Further properties of the hub *)

Section HubLifecycle.

Implicit Types (w : world) (sessionId : string).

Lemma terminateWebSocketServer_wssMap sessionId sig w :
  wssMap (WebSocket.terminateWebSocketServer sessionId sig w).1
    = delete sessionId (wssMap w).
Proof.
  unfold WebSocket.terminateWebSocketServer.
  destruct (wssMap w !! sessionId) as [server|] eqn:Hl; simpl.
  - by destruct (terminateClients_state (clients server)
                   (emit (WssClose (wss_id server)) w)) as (-> & _).
  - by rewrite delete_id.
Qed.

Lemma terminateWebSocketServer_counters sessionId sig w :
  nextWss (WebSocket.terminateWebSocketServer sessionId sig w).1 = nextWss w ∧
  sessions (WebSocket.terminateWebSocketServer sessionId sig w).1 = sessions w.
Proof.
  unfold WebSocket.terminateWebSocketServer.
  destruct (wssMap w !! sessionId) as [server|]; simpl; [|done].
  by destruct (terminateClients_state (clients server)
                 (emit (WssClose (wss_id server)) w)) as (_ & -> & -> & _).
Qed.

Lemma triggerWebSocket_state sessionId dataType data w :
  wssMap (WebSocket.triggerWebSocket sessionId dataType data w) = wssMap w ∧
  sessions (WebSocket.triggerWebSocket sessionId dataType data w) = sessions w ∧
  nextWss (WebSocket.triggerWebSocket sessionId dataType data w) = nextWss w.
Proof.
  unfold WebSocket.triggerWebSocket.
  destruct (wssMap w !! sessionId) as [server|]; [|done].
  by destruct (sendAll_state {| env_dataType := dataType; env_data := data;
                                env_sessionId := sessionId |} (clients server) w)
    as (-> & -> & -> & _).
Qed.

(** A broadcast sends the envelope once to each subscriber of the
    session, in the order they joined, and to nobody else; for a session
    without an entry it sends nothing.  It changes nothing but the
    trace. *)
Theorem triggerWebSocket_broadcast (sessionId dataType : string) (data : Js.value)
    (w : world) :
  let w' := WebSocket.triggerWebSocket sessionId dataType data w in
  let payload := {| env_dataType := dataType; env_data := data;
                    env_sessionId := sessionId |} in
  trace w' = trace w ++
    map (fun ws => WsSend ws payload)
        (match wssMap w !! sessionId with
         | Some server => clients server
         | None => []
         end) ∧
  wssMap w' = wssMap w ∧ sessions w' = sessions w ∧ nextWss w' = nextWss w.
Proof.
  simpl. unfold WebSocket.triggerWebSocket.
  destruct (wssMap w !! sessionId) as [server|].
  - rewrite sendAll_trace.
    by destruct (sendAll_state {| env_dataType := dataType; env_data := data;
                                  env_sessionId := sessionId |} (clients server) w)
      as (-> & -> & -> & _).
  - simpl. by rewrite app_nil_r.
Qed.

(** After an accepted upgrade (a parsed path that names a session with
    an entry, and a handshake that succeeds) the new connection receives
    the next broadcast of its session, together with the subscribers
    that were there before and nobody else. *)
Theorem handleUpgrade_then_broadcast (req : WebSocket.request) (path : string)
    (socket : conn) (sessionId dataType : string) (data : Js.value)
    (server : WebSocketServer) (w : world) :
  WebSocket.parsed req = WebSocket.UrlPathname path →
  WebSocket.handshake req = true →
  Spec.wsPath path sessionId →
  wssMap w !! sessionId = Some server →
  let w1 := (WebSocket.handleUpgrade req socket w).1 in
  let payload := {| env_dataType := dataType; env_data := data;
                    env_sessionId := sessionId |} in
  ∃ cs, trace (WebSocket.triggerWebSocket sessionId dataType data w1)
          = trace w1 ++ map (fun ws => WsSend ws payload) cs ∧
        socket ∈ cs ∧
        (∀ c, c ∈ cs ↔ c = socket ∨ c ∈ clients server).
Proof.
  intros Hparsed Hh Hp Hl. simpl.
  apply wsPath_extract in Hp as [Hs Hx].
  unfold WebSocket.handleUpgrade. rewrite Hparsed, Hs, Hx, Hl, Hh.
  unfold WebSocket.triggerWebSocket, WebSocket.acceptUpgrade. simpl.
  rewrite lookup_insert_eq. simpl.
  eexists. split; [apply sendAll_trace|]. split; [apply setAdd_elem|].
  intros c. unfold WebSocket.setAdd. case_bool_decide as Hin.
  - split; [auto | intros [->|?]; done].
  - rewrite elem_of_app, list_elem_of_singleton. tauto.
Qed.

(** Once a session's entry is closed, broadcasts for it send nothing and
    upgrade requests for it are refused, whether or not there was an
    entry. *)
Theorem terminateWebSocketServer_then_silent (sessionId : string)
    (sig : WebSocket.close_signal) (w : world) :
  let w1 := (WebSocket.terminateWebSocketServer sessionId sig w).1 in
  (∀ dataType data, WebSocket.triggerWebSocket sessionId dataType data w1 = w1) ∧
  (∀ req path socket,
     WebSocket.parsed req = WebSocket.UrlPathname path → Spec.wsPath path sessionId →
     WebSocket.handleUpgrade req socket w1
       = (emit (SocketDestroy socket) w1, WebSocket.Returned)).
Proof.
  simpl.
  assert (Hn : wssMap (WebSocket.terminateWebSocketServer sessionId sig w).1 !! sessionId
               = None).
  { rewrite terminateWebSocketServer_wssMap. apply lookup_delete_eq. }
  split.
  - intros. unfold WebSocket.triggerWebSocket. by rewrite Hn.
  - intros req path socket Hparsed [Hs Hx]%wsPath_extract.
    unfold WebSocket.handleUpgrade. by rewrite Hparsed, Hs, Hx, Hn.
Qed.

(** Closing a session's entry twice is harmless: the second call finds
    no entry, changes nothing and completes at once, whatever the first
    acceptor answers. *)
Theorem terminateWebSocketServer_twice (sessionId : string)
    (sig1 sig2 : WebSocket.close_signal) (w : world) :
  let w1 := (WebSocket.terminateWebSocketServer sessionId sig1 w).1 in
  WebSocket.terminateWebSocketServer sessionId sig2 w1 = (w1, Fulfilled Js.VUndefined).
Proof.
  simpl.
  assert (Hn : wssMap (WebSocket.terminateWebSocketServer sessionId sig1 w).1 !! sessionId
               = None).
  { rewrite terminateWebSocketServer_wssMap. apply lookup_delete_eq. }
  unfold WebSocket.terminateWebSocketServer at 1. by rewrite Hn.
Qed.

(** Re-creating the entry of a closed session gives a new acceptor, not
    the old one: it has the next unused identity and no subscribers, so
    the connections of the closed entry are not carried over. *)
Theorem terminate_then_init_fresh (cfg : config) (sessionId : string)
    (sig : WebSocket.close_signal) (w : world) :
  enableWebSocket cfg = true →
  Hub.wellFormed w →
  let w2 := WebSocket.initWebSocketServer cfg sessionId
              (WebSocket.terminateWebSocketServer sessionId sig w).1 in
  wssMap w2 !! sessionId = Some {| wss_id := nextWss w; clients := [] |} ∧
  (∀ other server, wssMap w !! other = Some server → wss_id server ≠ nextWss w) ∧
  (∀ other, other ≠ sessionId → wssMap w2 !! other = wssMap w !! other).
Proof.
  intros He [Hwf _]. simpl.
  set (w1 := (WebSocket.terminateWebSocketServer sessionId sig w).1).
  assert (Hm : wssMap w1 = delete sessionId (wssMap w))
    by apply terminateWebSocketServer_wssMap.
  destruct (terminateWebSocketServer_counters sessionId sig w) as [Hc _]. fold w1 in Hc.
  destruct (initWebSocketServer_fresh cfg sessionId w1 He) as [Hi _].
  { rewrite Hm. apply lookup_delete_eq. }
  rewrite Hi, Hm, Hc. split; [apply lookup_insert_eq|]. split.
  - intros other server Hl. destruct (Hwf other server Hl). lia.
  - intros other Hne. rewrite lookup_insert_ne by done. by apply lookup_delete_ne.
Qed.

(** Creating an entry for a session that has none and then closing it
    restores the hub map. *)
Theorem init_then_terminate_restores (cfg : config) (sessionId : string)
    (sig : WebSocket.close_signal) (w : world) :
  wssMap w !! sessionId = None →
  wssMap (WebSocket.terminateWebSocketServer sessionId sig
            (WebSocket.initWebSocketServer cfg sessionId w)).1 = wssMap w.
Proof.
  intros Hn. rewrite terminateWebSocketServer_wssMap.
  destruct (enableWebSocket cfg) eqn:He.
  - destruct (initWebSocketServer_fresh cfg sessionId w He Hn) as [-> _].
    by apply delete_insert_id.
  - rewrite initWebSocketServer_disabled by done. by apply delete_id.
Qed.

End HubLifecycle.

Section HubInvariant.

Variable cfg : config.

Lemma NoDup_setAdd c cs : NoDup cs → NoDup (WebSocket.setAdd c cs).
Proof.
  intros Hnd. unfold WebSocket.setAdd. case_bool_decide as Hin; [done|].
  apply NoDup_app. split; [done|]. split; [|apply NoDup_singleton].
  intros x Hx ->%list_elem_of_singleton. done.
Qed.

(** What an upgrade does, in its three cases. *)
Lemma handleUpgrade_cases req socket w :
  (∃ reason, WebSocket.handleUpgrade req socket w = (w, WebSocket.Threw reason)) ∨
  WebSocket.handleUpgrade req socket w
    = (emit (SocketDestroy socket) w, WebSocket.Returned) ∨
  ∃ path sessionId server,
    WebSocket.parsed req = WebSocket.UrlPathname path ∧
    Spec.wsPath path sessionId ∧
    wssMap w !! sessionId = Some server ∧
    WebSocket.handleUpgrade req socket w =
      (WebSocket.acceptUpgrade sessionId server (WebSocket.handshake req) socket w,
       WebSocket.Returned).
Proof.
  unfold WebSocket.handleUpgrade.
  destruct (WebSocket.parsed req) as [path|reason]; [|left; eauto].
  right.
  destruct (Js.startsWith path "/ws/") eqn:Hs; [|by left].
  destruct (startsWith_wsPath _ Hs) as [sid Hp].
  destruct (wsPath_extract _ _ Hp) as [_ ->].
  destruct (wssMap w !! sid) as [server|] eqn:Hl; [|by left].
  right. by exists path, sid, server.
Qed.

Lemma wsPath_unique path id1 id2 :
  Spec.wsPath path id1 → Spec.wsPath path id2 → id1 = id2.
Proof.
  intros [_ H1]%wsPath_extract [_ H2]%wsPath_extract. congruence.
Qed.

Lemma acceptUpgrade_wellFormed sessionId server handshakeOk socket w :
  wssMap w !! sessionId = Some server →
  Hub.wellFormed w →
  Hub.wellFormed (WebSocket.acceptUpgrade sessionId server handshakeOk socket w).
Proof.
  intros Hl [Hb Hu]. unfold WebSocket.acceptUpgrade.
  destruct handshakeOk; [|done].
  unfold Hub.wellFormed. simpl.
  assert (Hid : ∀ i s, <[sessionId := {| wss_id := wss_id server;
                            clients := WebSocket.setAdd socket (clients server) |}]>
                         (wssMap w) !! i = Some s →
                       ∃ s0, wssMap w !! i = Some s0 ∧ wss_id s = wss_id s0 ∧
                             (NoDup (clients s0) → NoDup (clients s))).
  { intros i s. destruct (decide (i = sessionId)) as [->|Hne].
    - rewrite lookup_insert_eq. intros [= <-]. exists server. simpl.
      split; [done|]. split; [done|]. apply NoDup_setAdd.
    - rewrite lookup_insert_ne by done. eauto. }
  split.
  - intros i s (s0 & H0 & -> & Hnd)%Hid. destruct (Hb i s0 H0). auto.
  - intros i j s1 s2 (s1' & H1 & -> & _)%Hid (s2' & H2 & -> & _)%Hid. by apply Hu.
Qed.

Lemma emit_wellFormed e w : Hub.wellFormed w → Hub.wellFormed (emit e w).
Proof. done. Qed.

Lemma handleUpgrade_wellFormed req socket w :
  Hub.wellFormed w → Hub.wellFormed (WebSocket.handleUpgrade req socket w).1.
Proof.
  intros Hwf.
  destruct (handleUpgrade_cases req socket w)
    as [[reason ->]|[->|(path & sid & server & _ & _ & Hl & ->)]]; simpl.
  - done.
  - by apply emit_wellFormed.
  - by apply acceptUpgrade_wellFormed.
Qed.

Lemma initWebSocketServer_wellFormed sessionId w :
  Hub.wellFormed w → Hub.wellFormed (WebSocket.initWebSocketServer cfg sessionId w).
Proof.
  intros [Hb Hu]. unfold WebSocket.initWebSocketServer.
  destruct (enableWebSocket cfg); [|done].
  destruct (wssMap w !! sessionId) eqn:Hl; [done|].
  unfold Hub.wellFormed. simpl. split.
  - intros i s. destruct (decide (i = sessionId)) as [->|Hne].
    + rewrite lookup_insert_eq. intros [= <-]. simpl. split; [lia|constructor].
    + rewrite lookup_insert_ne by done. intros H. destruct (Hb i s H). split; [lia|done].
  - intros i j s1 s2.
    destruct (decide (i = sessionId)) as [->|Hi], (decide (j = sessionId)) as [->|Hj];
      rewrite ?lookup_insert_eq, ?lookup_insert_ne by done; try done.
    + intros [= <-] H2 Heq. simpl in Heq. destruct (Hb j s2 H2). lia.
    + intros H1 [= <-] Heq. simpl in Heq. destruct (Hb i s1 H1). lia.
    + apply Hu.
Qed.

Lemma terminateWebSocketServer_wellFormed sessionId sig w :
  Hub.wellFormed w →
  Hub.wellFormed (WebSocket.terminateWebSocketServer sessionId sig w).1.
Proof.
  intros [Hb Hu]. unfold Hub.wellFormed.
  rewrite terminateWebSocketServer_wssMap.
  destruct (terminateWebSocketServer_counters sessionId sig w) as [-> _].
  split.
  - intros i s [_ H]%lookup_delete_Some. by apply (Hb i).
  - intros i j s1 s2 [_ H1]%lookup_delete_Some [_ H2]%lookup_delete_Some. by apply Hu.
Qed.

Lemma triggerWebSocket_wellFormed sessionId dataType data w :
  Hub.wellFormed w →
  Hub.wellFormed (WebSocket.triggerWebSocket sessionId dataType data w).
Proof.
  intros Hwf. unfold Hub.wellFormed.
  destruct (triggerWebSocket_state sessionId dataType data w) as (Hm & _ & Hn).
  by rewrite Hm, Hn.
Qed.

Lemma hubStep_wellFormed w c :
  Hub.wellFormed w → Hub.wellFormed (Server.hubStep cfg w c).
Proof.
  intros Hwf. destruct c as [sid|sid sig|sid dt data|req socket]; simpl.
  - by apply initWebSocketServer_wellFormed.
  - by apply terminateWebSocketServer_wellFormed.
  - by apply triggerWebSocket_wellFormed.
  - unfold Server.onUpgrade, Server.upgradeListener.
    destruct (enableWebSocket cfg); [|done].
    pose proof (handleUpgrade_wellFormed req socket w Hwf) as H.
    by destruct (WebSocket.handleUpgrade req socket w).
Qed.

(** Through every run of the hub's operations, in either mode, the hub
    stays well formed: each registered acceptor was allocated earlier, no
    acceptor is registered for two session ids, and no acceptor tracks a
    connection twice (so a broadcast reaches each subscriber once). *)
Theorem hubRun_wellFormed (calls : list Server.hub_call) (w : world) :
  Hub.wellFormed w → Hub.wellFormed (Server.hubRun cfg calls w).
Proof.
  unfold Server.hubRun. revert w.
  induction calls as [|c calls IH]; intros w Hwf; simpl; [done|].
  by apply IH, hubStep_wellFormed.
Qed.

(** An upgrade request can change only the entry of the session its path
    names, and only by adding the connection: it never creates or removes
    an entry and never replaces an acceptor.  This holds of every
    request, also of one whose URL does not parse or whose handshake is
    refused. *)
Theorem handleUpgrade_preserves_entries (req : WebSocket.request) (socket : conn)
    (w : world) :
  let w' := (WebSocket.handleUpgrade req socket w).1 in
  dom (wssMap w') = dom (wssMap w) ∧
  (∀ other,
     (∀ path, WebSocket.parsed req = WebSocket.UrlPathname path →
              ¬ Spec.wsPath path other) →
     wssMap w' !! other = wssMap w !! other) ∧
  (∀ sessionId server', wssMap w' !! sessionId = Some server' →
     ∃ server, wssMap w !! sessionId = Some server ∧
               wss_id server' = wss_id server ∧
               ∀ c, c ∈ clients server → c ∈ clients server') ∧
  sessions w' = sessions w ∧ nextWss w' = nextWss w.
Proof.
  simpl.
  destruct (handleUpgrade_cases req socket w)
    as [[reason ->]|[->|(path & sid & server & Hparsed & Hp & Hl & ->)]]; simpl.
  { repeat split; eauto. }
  { repeat split; eauto. }
  unfold WebSocket.acceptUpgrade.
  destruct (WebSocket.handshake req); simpl; [|repeat split; eauto].
  split; [|split; [|split; [|done]]].
  - by apply dom_insert_lookup_L.
  - intros other Hn. apply lookup_insert_ne. intros <-. by apply (Hn path).
  - intros i s'. destruct (decide (i = sid)) as [->|Hne].
    + rewrite lookup_insert_eq. intros [= <-]. exists server. simpl.
      split; [done|]. split; [done|]. intros c. apply setAdd_mono.
    + rewrite lookup_insert_ne by done. eauto.
Qed.

Lemma hubStep_entries w c sessionId :
  is_Some (wssMap (Server.hubStep cfg w c) !! sessionId) →
  is_Some (wssMap w !! sessionId) ∨
  (Hub.isInit sessionId c = true ∧ enableWebSocket cfg = true).
Proof.
  destruct c as [sid|sid sig|sid dt data|req socket]; simpl.
  - unfold WebSocket.initWebSocketServer.
    destruct (enableWebSocket cfg); [|by left].
    destruct (wssMap w !! sid) eqn:Hl; [by left|]. simpl.
    destruct (decide (sid = sessionId)) as [->|Hne].
    + intros _. right. by rewrite String.eqb_refl.
    + rewrite lookup_insert_ne by done. by left.
  - rewrite terminateWebSocketServer_wssMap.
    intros [s [_ H]%lookup_delete_Some]. left. eauto.
  - destruct (triggerWebSocket_state sid dt data w) as (-> & _). by left.
  - unfold Server.onUpgrade, Server.upgradeListener.
    destruct (enableWebSocket cfg); [|by left].
    destruct (handleUpgrade_cases req socket w)
      as [[reason ->]|[->|(path & sid & server & _ & _ & Hl & ->)]]; simpl;
      [by left | by left |].
    unfold WebSocket.acceptUpgrade.
    destruct (WebSocket.handshake req); simpl; [|by left].
    destruct (decide (sid = sessionId)) as [->|Hne]; [left; eauto|].
    rewrite lookup_insert_ne by done. by left.
Qed.

(** Hub entries come from [initWebSocketServer] only: a session id that
    has an entry after a run either had one before or was initialised
    during the run, with websocket mode enabled. *)
Theorem hubRun_entries_from_init (calls : list Server.hub_call) (w : world)
    (sessionId : string) :
  is_Some (wssMap (Server.hubRun cfg calls w) !! sessionId) →
  is_Some (wssMap w !! sessionId) ∨
  (existsb (Hub.isInit sessionId) calls = true ∧ enableWebSocket cfg = true).
Proof.
  unfold Server.hubRun. revert w.
  induction calls as [|c calls IH]; intros w; simpl; [by left|].
  intros [H|[H He]]%IH.
  - destruct (hubStep_entries w c sessionId H) as [?|[Hi He]]; [by left|].
    right. by rewrite Hi.
  - right. by rewrite H, orb_true_r.
Qed.

End HubInvariant.

(** Only the segment after [/ws/] matters to an upgrade: two requests
    whose parsed paths name the same session id are treated alike,
    whatever follows the id in the path, as long as the acceptor treats
    their handshakes alike. *)
Theorem handleUpgrade_ignores_trailing_segments (req req' : WebSocket.request)
    (path path' sessionId : string) (socket : conn) (w : world) :
  WebSocket.parsed req = WebSocket.UrlPathname path →
  WebSocket.parsed req' = WebSocket.UrlPathname path' →
  WebSocket.handshake req = WebSocket.handshake req' →
  Spec.wsPath path sessionId →
  Spec.wsPath path' sessionId →
  WebSocket.handleUpgrade req socket w = WebSocket.handleUpgrade req' socket w.
Proof.
  intros Hparsed Hparsed' Hh [Hs Hx]%wsPath_extract [Hs' Hx']%wsPath_extract.
  unfold WebSocket.handleUpgrade. by rewrite Hparsed, Hparsed', Hh, Hs, Hx, Hs', Hx'.
Qed.

(** * Further properties of the utils module *)

Section NestedPath.

Lemma split_app sep a b :
  Js.split sep (a +:+ String sep b) = Js.split sep a ++ Js.split sep b.
Proof.
  induction a as [|c a IH]; simpl.
  - by rewrite Ascii.eqb_refl.
  - change (String.append a (String sep b)) with (a +:+ String sep b). rewrite IH.
    destruct (Ascii.eqb c sep); [done|].
    pose proof (split_nonempty sep a) as Hne.
    by destruct (Js.split sep a).
Qed.

Lemma reduce_undefined keys :
  foldl (fun obj key => if Js.truthy obj then Js.get obj key else Js.VUndefined)
        Js.VUndefined keys = Js.VUndefined.
Proof. induction keys as [|k keys IH]; simpl; done. Qed.

Lemma nested_split rootObj a b :
  Utils.nested rootObj (a +:+ "." +:+ b) =
  foldl (fun obj key => if Js.truthy obj then Js.get obj key else Js.VUndefined)
        (Utils.nested rootObj a) (Js.split "." b).
Proof.
  unfold Utils.nested.
  change (a +:+ "." +:+ b) with (a +:+ String "." b).
  by rewrite split_app, foldl_app.
Qed.

(** A dotted path is followed segment by segment: reading [a.b] is
    reading [b] in what reading [a] gave, also when [a] and [b] are
    dotted paths themselves. *)
Theorem nested_compose (rootObj : Js.value) (a b : string) :
  Utils.nested rootObj (a +:+ "." +:+ b) = Utils.nested (Utils.nested rootObj a) b.
Proof.
  rewrite nested_split. unfold Utils.nested at 2. reflexivity.
Qed.

(** A path that runs through a missing, [null] or otherwise falsy value
    reads as [undefined]: the lookup does not fail on it, whatever the
    rest of the path is. *)
Theorem nested_through_falsy (rootObj : Js.value) (a b : string) :
  Js.truthy (Utils.nested rootObj a) = false →
  Utils.nested rootObj (a +:+ "." +:+ b) = Js.VUndefined.
Proof.
  intros Hf. rewrite nested_split.
  pose proof (split_nonempty "." b) as Hne.
  destruct (Js.split "." b) as [|k keys]; [done|].
  simpl. rewrite Hf. apply reduce_undefined.
Qed.

End NestedPath.

Lemma nested_through_falsy_witness :
  Utils.nested (Js.VObj [("pupPage"%string, Js.VNull)]) "pupPage.mainFrame" = Js.VUndefined.
Proof.
  apply (nested_through_falsy (Js.VObj [("pupPage"%string, Js.VNull)]) "pupPage" "mainFrame").
  reflexivity.
Defined.

(** The first check decides when it can: an object that is ready when
    the wait starts resolves it at once and logs nothing, whatever the
    bound, even a negative one; and with a negative bound an object that
    is not ready rejects the wait at once, without a timer. *)
Theorem waitForNestedObject_first_check (env : Utils.poll_env) (nestedPath : string)
    (maxWaitTime interval : option Z) (w : world) :
  let ready := Js.truthy (Utils.nested (Utils.rootAt env (Utils.start env)) nestedPath) in
  (ready = true →
     Utils.waitForNestedObject env nestedPath maxWaitTime interval w
       = (w, Utils.ResolvedAt (Utils.start env))) ∧
  (ready = false → default 10000 maxWaitTime < 0 →
     Utils.waitForNestedObject env nestedPath maxWaitTime interval w
       = (emit (LogError Utils.ctxNone "Timed out waiting for nested object") w,
          Utils.RejectedAt (Utils.start env) "Timeout waiting for nested object")).
Proof.
  simpl. unfold Utils.waitForNestedObject, Utils.pollBudget.
  rewrite Nat.add_comm. simpl. split.
  - by intros ->.
  - intros -> Hneg.
    assert ((default 10000 maxWaitTime <? Utils.start env - Utils.start env) = true) as ->;
      [|done].
    apply Z.ltb_lt. lia.
Qed.

Lemma waitForNestedObject_first_check_witness :
  Utils.waitForNestedObject Sample.envNull "pupPage" (Some (-1)) None initialWorld
    = (emit (LogError Utils.ctxNone "Timed out waiting for nested object") initialWorld,
       Utils.RejectedAt 0 "Timeout waiting for nested object").
Proof.
  apply (waitForNestedObject_first_check Sample.envNull "pupPage" (Some (-1)) None
           initialWorld); [reflexivity | simpl; lia].
Defined.

(** With timers that fire on time and a bound that is not negative, a
    wait on an object that never gets ready is rejected exactly
    (maxWaitTime / delay + 1) * delay milliseconds after it started: at
    the first poll past the bound, not at the bound. *)
Theorem waitForNestedObject_timeout_time (env : Utils.poll_env) (nestedPath : string)
    (maxWaitTime interval : option Z) (w : world) :
  let mw := default 10000 maxWaitTime in
  let delay := Utils.setTimeoutDelay (default 100 interval) in
  (∀ k, Utils.lateness env k = 0%nat) →
  (∀ t, Js.truthy (Utils.nested (Utils.rootAt env t) nestedPath) = false) →
  0 <= mw →
  (Utils.waitForNestedObject env nestedPath maxWaitTime interval w).2
    = Utils.RejectedAt (Utils.start env + (mw / delay + 1) * delay)
                       "Timeout waiting for nested object".
Proof.
  simpl. intros Hl Hf Hmw. unfold Utils.waitForNestedObject.
  set (mw := default 10000 maxWaitTime) in *. set (iv := default 100 interval).
  pose proof (checkObject_runs env nestedPath mw iv (Utils.pollBudget mw iv) 0) as Hr.
  pose proof (checkObject_settles env nestedPath mw iv) as Hs.
  simpl Utils.pollTime in Hr.
  destruct (Utils.checkObject env nestedPath mw iv (Utils.pollBudget mw iv) 0
              (Utils.start env)) as [|t|t msg]; [done| |].
  - destruct Hr as (n & _ & -> & Ht & _). rewrite Hf in Ht. done.
  - destruct Hr as (n & _ & -> & _ & Hm & -> & Hc). simpl. f_equal.
    rewrite pollTime_exact in * by done.
    pose proof (setTimeoutDelay_pos iv) as Hd.
    set (d := Utils.setTimeoutDelay iv) in *.
    assert (Hn : Z.of_nat n = mw / d + 1).
    { destruct n as [|n]; [lia|].
      destruct (Hc n ltac:(lia)) as [_ Hle]. rewrite pollTime_exact in Hle by done.
      fold d in Hle.
      pose proof (Z.div_mod mw d ltac:(lia)) as Hdm.
      pose proof (Z.mod_pos_bound mw d ltac:(lia)) as Hmod.
      nia. }
    rewrite Hn. done.
Qed.

Lemma waitForNestedObject_timeout_time_witness :
  (Utils.waitForNestedObject Sample.envNull "pupPage" (Some 250) (Some 100) initialWorld).2
    = Utils.RejectedAt (0 + (250 / Utils.setTimeoutDelay 100 + 1) * Utils.setTimeoutDelay 100)
                       "Timeout waiting for nested object".
Proof.
  apply (waitForNestedObject_timeout_time Sample.envNull "pupPage" (Some 250) (Some 100)
           initialWorld); [reflexivity | reflexivity | simpl; lia].
Defined.

(** * Properties of the request handlers *)

Ltac run_handler :=
  unfold Api.tryCatch, Api.bind, Api.call, Api.lift, Api.act, Api.ret, Api.throw,
    Api.failWith, Api.resJson, Api.sendErrorResponse, Api.readProp, Api.destructure;
  simpl.

Ltac once_with pre :=
  solve [exists pre; eexists; split; [reflexivity|]; split; [reflexivity|];
         repeat constructor].

Ltac answers_once :=
  unfold Api.answersOnce;
  first [ once_with (@nil Api.action)
        | eexists [_]; eexists; split; [reflexivity|]; split; [reflexivity|];
          solve [repeat constructor]
        | eexists [_; _]; eexists; split; [reflexivity|]; split; [reflexivity|];
          solve [repeat constructor]
        | eexists [_; _; _]; eexists; split; [reflexivity|]; split; [reflexivity|];
          solve [repeat constructor]
        | eexists [_; _; _; _]; eexists; split; [reflexivity|]; split; [reflexivity|];
          solve [repeat constructor] ].

(** Settles a goal that says how a handler, run to its end, left the
    request. *)
Ltac settled :=
  first [ split; [reflexivity | answers_once]
        | split; [eexists; reflexivity | repeat constructor] ].

Ltac in_list :=
  rewrite ?elem_of_cons, ?elem_of_nil.

(** [sendMessageSeenStatus] never fails towards its caller, whatever
    value a failing call rejects with.  The seen status is sent only on a
    chat that [getChat] delivered; if getting the chat or sending the
    status fails, the failure is logged, once, and nothing else is
    done. *)
Theorem sendMessageSeenStatus_never_rejects (getChat sendSeen : Api.result Js.value) :
  let '(acts, r) := Seen.sendMessageSeenStatus getChat sendSeen in
  r = Api.Ok tt ∧
  (Api.CallSendSeen ∈ acts ↔
     ∃ chat, getChat = Api.Ok chat ∧ Api.isNullish chat = false) ∧
  (∀ chat v, getChat = Api.Ok chat → Api.isNullish chat = false →
     sendSeen = Api.Ok v → acts = [Api.CallGetChat; Api.CallSendSeen]) ∧
  (∀ chat err, getChat = Api.Ok chat → Api.isNullish chat = false →
     sendSeen = Api.Raise err →
     acts = [Api.CallGetChat; Api.CallSendSeen;
             Api.LogFailure None "Failed to send seen status" err]) ∧
  (∀ err, getChat = Api.Raise err →
     acts = [Api.CallGetChat; Api.LogFailure None "Failed to send seen status" err]).
Proof.
  unfold Seen.sendMessageSeenStatus. run_handler.
  destruct getChat as [chat|e]; simpl.
  - destruct (Api.isNullish chat) eqn:Hn; simpl.
    + split; [done|]. split; [|split; [|split]]; try (intros; congruence).
      in_list. split; [intros [?|[?|[]]]; done|].
      intros (c & [= <-] & Hc). congruence.
    + destruct sendSeen as [v|err]; simpl.
      * split; [done|]. split; [|split; [|split]]; try (intros; congruence).
        in_list. split; [eauto | auto].
      * split; [done|]. split; [|split; [|split]]; try (intros; congruence).
        in_list. split; [eauto | auto].
  - split; [done|]. split; [|split; [|split]]; try (intros; congruence).
    in_list. split; [intros [?|[?|[]]]; done|].
    intros (c & [=] & _).
Qed.

Lemma sendMessageSeenStatus_never_rejects_witness :
  (Seen.sendMessageSeenStatus (Api.Ok (Js.VObj [])) (Api.Raise Js.VNull)).1
    = [Api.CallGetChat; Api.CallSendSeen;
       Api.LogFailure None "Failed to send seen status" Js.VNull].
Proof.
  pose proof (sendMessageSeenStatus_never_rejects
                (Api.Ok (Js.VObj [])) (Api.Raise Js.VNull)) as H.
  destruct (Seen.sendMessageSeenStatus (Api.Ok (Js.VObj [])) (Api.Raise Js.VNull))
    as [acts r].
  destruct H as (_ & _ & _ & H & _). exact (H (Js.VObj []) Js.VNull eq_refl eq_refl eq_refl).
Defined.

Section SessionEndpointFacts.

Variable sessions : gmap string Js.value.
Variable sessionId : string.

(** Every session endpoint answers its request exactly once, as the
    last thing it does, and returns normally, unless its catch block
    receives [null] or [undefined]: then reading [error.message] throws
    out of the catch block, the handler fails towards the framework and
    the request is left without an answer.  The catch block receives the
    value of the first awaited call that fails; the reload, the deletion
    and the pairing call are awaited only where the endpoint gets as far
    as making them. *)
Theorem session_endpoints_answer_once (body : Js.value)
    (validation outcome : Api.result Js.value) :
  let settles (m : Api.M unit) (awaited : list (Api.result Js.value)) :=
    if Api.caughtNullish awaited then Api.unanswered m else Api.answered m in
  let guarded :=
    match validation with
    | Api.Ok v =>
        if negb (Api.isNullish v) &&
           negb (Api.isString (Js.get v "message") "session_not_found")
        then [outcome] else []
    | Api.Raise _ => []
    end in
  let pairing :=
    if negb (Api.isNullish body) && Js.truthy (Api.sessionsGet sessions sessionId)
    then [outcome] else [] in
  settles (SessionEndpoints.statusSession sessionId validation) [validation] ∧
  settles (SessionEndpoints.sessionQrCode sessions sessionId) [] ∧
  settles (SessionEndpoints.sessionQrCodeImage sessions sessionId) [] ∧
  settles (SessionEndpoints.restartSession sessionId validation outcome)
          (validation :: guarded) ∧
  settles (SessionEndpoints.terminateSession sessionId validation outcome)
          (validation :: guarded) ∧
  settles (SessionEndpoints.terminateInactiveSessions outcome) [outcome] ∧
  settles (SessionEndpoints.terminateAllSessions outcome) [outcome] ∧
  settles (SessionEndpoints.requestPairingCode sessions sessionId body outcome) pairing.
Proof.
  cbv zeta.
  unfold SessionEndpoints.statusSession, SessionEndpoints.sessionQrCode,
    SessionEndpoints.sessionQrCodeImage, SessionEndpoints.restartSession,
    SessionEndpoints.terminateSession, SessionEndpoints.terminateInactiveSessions,
    SessionEndpoints.terminateAllSessions, SessionEndpoints.requestPairingCode,
    SessionEndpoints.logAndFail, Api.caughtNullish, Api.answered, Api.unanswered.
  run_handler.
  destruct (Api.isNullish body) eqn:Hb;
    destruct (Js.truthy (Api.sessionsGet sessions sessionId)) eqn:Hs;
    destruct (Js.truthy (Js.get (Api.sessionsGet sessions sessionId) "qr")) eqn:Hq;
    (destruct validation as [v|e];
       [destruct (Api.isNullish v) eqn:Hv;
        destruct (Api.isString (Js.get v "message") "session_not_found") eqn:Hm
       |destruct (Api.isNullish e) eqn:He]);
    (destruct outcome as [r|e']; [|destruct (Api.isNullish e') eqn:He']);
    simpl; rewrite ?Hv, ?He, ?He'; simpl;
    repeat (split; first settled); settled.
Qed.

(** The two QR endpoints agree: the image is served exactly when the
    JSON endpoint reports success, for the same QR text, which is when
    the session is known and its QR text is not empty; otherwise both
    give the same answer, and for an unknown session that answer is
    [session_not_found] with status 200. *)
Theorem sessionQrCode_image_agree :
  let session := Api.sessionsGet sessions sessionId in
  let qr := Js.get session "qr" in
  let code := SessionEndpoints.sessionQrCode sessions sessionId in
  let image := SessionEndpoints.sessionQrCodeImage sessions sessionId in
  (code.1 = [Api.ResJson 200 (Api.success [("qr"%string, qr)])] ↔
     Js.truthy session && Js.truthy qr = true) ∧
  (image.1 = [Api.ResPng qr] ↔ Js.truthy session && Js.truthy qr = true) ∧
  (Js.truthy session && Js.truthy qr = false → image = code) ∧
  (sessions !! sessionId = None →
     code = ([Api.ResJson 200 (Api.failure "session_not_found")], Api.Ok tt)).
Proof.
  simpl. unfold SessionEndpoints.sessionQrCode, SessionEndpoints.sessionQrCodeImage.
  run_handler. split; [|split; [|split]].
  - destruct (Js.truthy (Api.sessionsGet sessions sessionId)); simpl;
      [destruct (Js.truthy (Js.get (Api.sessionsGet sessions sessionId) "qr")); simpl|];
      split; try done; intros [=].
  - destruct (Js.truthy (Api.sessionsGet sessions sessionId)); simpl;
      [destruct (Js.truthy (Js.get (Api.sessionsGet sessions sessionId) "qr")); simpl|];
      split; try done; intros [=].
  - destruct (Js.truthy (Api.sessionsGet sessions sessionId)); simpl;
      [destruct (Js.truthy (Js.get (Api.sessionsGet sessions sessionId) "qr")); simpl|];
      done.
  - intros Hn. unfold Api.sessionsGet. rewrite Hn. done.
Qed.

End SessionEndpointFacts.

Lemma session_endpoints_answer_once_witness :
  Api.unanswered (SessionEndpoints.statusSession "abc" (Api.Raise Js.VNull)) ∧
  Api.answered (SessionEndpoints.restartSession "abc"
                  (Api.Ok (Api.failure "session_not_found")) (Api.Raise Js.VNull)).
Proof.
  split.
  - exact (proj1 (session_endpoints_answer_once ∅ "abc" Js.VNull
                    (Api.Raise Js.VNull) (Api.Ok Js.VUndefined))).
  - exact (proj1 (proj2 (proj2 (proj2
             (session_endpoints_answer_once ∅ "abc" Js.VNull
                (Api.Ok (Api.failure "session_not_found")) (Api.Raise Js.VNull)))))).
Defined.

Lemma isString_nullish v text : Api.isNullish v = true → Api.isString (Js.get v "message") text = false.
Proof. by destruct v. Qed.

(** [restartSession] reloads only a session that validation did not
    report as [session_not_found].  For a session not found it answers
    with the validation object itself and calls nothing further; a
    reload that succeeds is answered with the fixed message; a failure
    of validation or of the reload is logged and, unless the value thrown
    is [null] or [undefined], answered with status 500 and the error's
    message. *)
Theorem restartSession_guarded (sessionId : string)
    (validation reload : Api.result Js.value) :
  let acts := (SessionEndpoints.restartSession sessionId validation reload).1 in
  let notFound v := Api.isString (Js.get v "message") "session_not_found" in
  let failed err :=
    Api.LogFailure (Some sessionId) "Failed to restart session" err ::
    if Api.isNullish err then []
    else [Api.ResJson 500 (Js.VObj [("success"%string, Js.VBool false);
                                    ("error"%string, Js.get err "message")])] in
  (Api.CallReloadSession sessionId ∈ acts ↔
     ∃ v, validation = Api.Ok v ∧ Api.isNullish v = false ∧ notFound v = false) ∧
  (∀ v, validation = Api.Ok v → notFound v = true →
     acts = [Api.CallValidateSession sessionId; Api.ResJson 200 v]) ∧
  (∀ v r, validation = Api.Ok v → Api.isNullish v = false → notFound v = false →
     reload = Api.Ok r →
     acts = [Api.CallValidateSession sessionId; Api.CallReloadSession sessionId;
             Api.ResJson 200 (Api.success [("message"%string,
                                            Js.VStr "Restarted successfully")])]) ∧
  (∀ v err, validation = Api.Ok v → Api.isNullish v = false → notFound v = false →
     reload = Api.Raise err →
     acts = [Api.CallValidateSession sessionId; Api.CallReloadSession sessionId]
            ++ failed err) ∧
  (∀ err, validation = Api.Raise err →
     acts = Api.CallValidateSession sessionId :: failed err).
Proof.
  simpl. unfold SessionEndpoints.restartSession, SessionEndpoints.logAndFail.
  run_handler.
  destruct validation as [v|e]; simpl.
  - destruct (Api.isNullish v) eqn:Hn; simpl.
    + pose proof (isString_nullish v "session_not_found" Hn) as Hs.
      split; [|repeat split; intros; congruence].
      in_list. split; [intros [?|[?|[?|[]]]]; done|].
      intros (v' & [= <-] & ? & _). congruence.
    + destruct (Api.isString (Js.get v "message") "session_not_found") eqn:Hs; simpl.
      * split; [|repeat split; intros; congruence].
        in_list. split; [intros [?|[?|[]]]; done|].
        intros (v' & [= <-] & _ & ?). congruence.
      * destruct reload as [r|err]; simpl; [|destruct (Api.isNullish err) eqn:He; simpl];
          (split; [in_list; split; [eauto | auto]
                  |repeat split; intros; first [congruence | simplify_eq; rewrite ?He; done]]).
  - destruct (Api.isNullish e) eqn:He; simpl;
      (split; [|repeat split; intros; first [congruence | simplify_eq; rewrite ?He; done]]);
      in_list; (split; [intros H; repeat (destruct H as [H|H]; try done)|]);
      intros (v' & [=] & _).
Qed.

Lemma restartSession_guarded_witness :
  (SessionEndpoints.restartSession "abc"
     (Api.Ok (Api.failure "session_not_found")) (Api.Ok Js.VUndefined)).1
    = [Api.CallValidateSession "abc"; Api.ResJson 200 (Api.failure "session_not_found")].
Proof.
  apply (restartSession_guarded "abc"
           (Api.Ok (Api.failure "session_not_found")) (Api.Ok Js.VUndefined));
    reflexivity.
Defined.

(** [terminateSession] deletes only a session that validation did not
    report as [session_not_found], and hands the validation object to the
    deletion; for a session not found it answers with the validation
    object itself and deletes nothing; a failure of validation or of the
    deletion is logged and, unless the value thrown is [null] or
    [undefined], answered with status 500 and the error's message. *)
Theorem terminateSession_guarded (sessionId : string)
    (validation delete : Api.result Js.value) :
  let acts := (SessionEndpoints.terminateSession sessionId validation delete).1 in
  let notFound v := Api.isString (Js.get v "message") "session_not_found" in
  let failed err :=
    Api.LogFailure (Some sessionId) "Failed to terminate session" err ::
    if Api.isNullish err then []
    else [Api.ResJson 500 (Js.VObj [("success"%string, Js.VBool false);
                                    ("error"%string, Js.get err "message")])] in
  (∀ sid v', Api.CallDeleteSession sid v' ∈ acts →
     sid = sessionId ∧ validation = Api.Ok v' ∧
     Api.isNullish v' = false ∧ notFound v' = false) ∧
  (∀ v, validation = Api.Ok v → notFound v = true →
     acts = [Api.CallValidateSession sessionId; Api.ResJson 200 v]) ∧
  (∀ v r, validation = Api.Ok v → Api.isNullish v = false → notFound v = false →
     delete = Api.Ok r →
     acts = [Api.CallValidateSession sessionId; Api.CallDeleteSession sessionId v;
             Api.ResJson 200 (Api.success [("message"%string,
                                            Js.VStr "Logged out successfully")])]) ∧
  (∀ v err, validation = Api.Ok v → Api.isNullish v = false → notFound v = false →
     delete = Api.Raise err →
     acts = [Api.CallValidateSession sessionId; Api.CallDeleteSession sessionId v]
            ++ failed err) ∧
  (∀ err, validation = Api.Raise err →
     acts = Api.CallValidateSession sessionId :: failed err).
Proof.
  simpl. unfold SessionEndpoints.terminateSession, SessionEndpoints.logAndFail.
  run_handler.
  destruct validation as [v|e]; simpl.
  - destruct (Api.isNullish v) eqn:Hn; simpl.
    + pose proof (isString_nullish v "session_not_found" Hn) as Hs.
      split; [|repeat split; intros; congruence].
      intros sid v'. in_list. intros [?|[?|[?|[]]]]; done.
    + destruct (Api.isString (Js.get v "message") "session_not_found") eqn:Hs; simpl.
      * split; [|repeat split; intros; congruence].
        intros sid v'. in_list. intros [?|[?|[]]]; done.
      * destruct delete as [r|err]; simpl; [|destruct (Api.isNullish err) eqn:He; simpl];
          (split; [|repeat split; intros; first [congruence | simplify_eq; rewrite ?He; done]]);
          intros sid v'; in_list;
          intros H; repeat (destruct H as [H|H]; try done);
          injection H as -> ->; done.
  - destruct (Api.isNullish e) eqn:He; simpl;
      (split; [|repeat split; intros; first [congruence | simplify_eq; rewrite ?He; done]]);
      intros sid v'; in_list; intros H; repeat (destruct H as [H|H]; try done).
Qed.

Lemma terminateSession_guarded_witness :
  (SessionEndpoints.terminateSession "abc"
     (Api.Ok (Api.failure "session_not_found")) (Api.Ok Js.VUndefined)).1
    = [Api.CallValidateSession "abc"; Api.ResJson 200 (Api.failure "session_not_found")].
Proof.
  apply (terminateSession_guarded "abc"
           (Api.Ok (Api.failure "session_not_found")) (Api.Ok Js.VUndefined));
    reflexivity.
Defined.

Ltac mem_cases H :=
  repeat (apply elem_of_cons in H as [H|H]; [try discriminate H|]);
  try (by apply elem_of_nil in H).

Ltac suffix_of :=
  first [ by exists [] | by eexists [_] | by eexists [_; _] | by eexists [_; _; _] ].

(** [requestPairingCode] calls the client only for a request with a body
    and a known session, with the phone number of the body.  The
    notification flag defaults to [true] only when the body has none: a
    flag that is given, [false] or even [null], is passed on as it is.
    An unknown session is answered [session_not_found] and a missing body
    with status 500, both without calling the client. *)
Theorem requestPairingCode_forwards (sessions : gmap string Js.value) (sessionId : string)
    (body : Js.value) (pairing : Api.result Js.value) :
  let acts := (SessionEndpoints.requestPairingCode sessions sessionId body pairing).1 in
  let client := Api.sessionsGet sessions sessionId in
  let called := Api.isNullish body = false ∧ Js.truthy client = true in
  (∀ s p n, Api.CallRequestPairingCode s p n ∈ acts →
     called ∧ s = sessionId ∧ p = Js.get body "phoneNumber" ∧
     n = Api.withDefault (Js.get body "showNotification") (Js.VBool true)) ∧
  (called → ∀ n, Js.get body "showNotification" = n → n ≠ Js.VUndefined →
     Api.CallRequestPairingCode sessionId (Js.get body "phoneNumber") n ∈ acts) ∧
  (called → Js.get body "showNotification" = Js.VUndefined →
     Api.CallRequestPairingCode sessionId (Js.get body "phoneNumber") (Js.VBool true) ∈ acts) ∧
  (Api.isNullish body = false → Js.truthy client = false →
     acts = [Api.ResJson 200 (Api.failure "session_not_found")]) ∧
  (Api.isNullish body = true →
     ∃ err, acts = [Api.ResJson 500 (Js.VObj [("success"%string, Js.VBool false);
                                              ("error"%string, Js.VStr err)])]).
Proof.
  simpl. unfold SessionEndpoints.requestPairingCode. run_handler.
  destruct (Api.isNullish body) eqn:Hb; simpl.
  { split; [intros s p n H; mem_cases H|].
    repeat split; try (intros [? ?]; congruence); try (intros; congruence). eauto. }
  destruct (Js.truthy (Api.sessionsGet sessions sessionId)) eqn:Hc; simpl.
  - destruct pairing as [r|e]; simpl; [|destruct (Api.isNullish e) eqn:He; simpl];
      (split; [intros s p n H; mem_cases H; by injection H as -> -> ->|]);
      (split; [intros _ n Hn Hne; rewrite Hn; apply elem_of_cons; left; by destruct n|]);
      (split; [intros _ Hn; rewrite Hn; apply elem_of_cons; by left|]);
      (split; intros; congruence).
  - split; [intros s p n H; mem_cases H|].
    repeat split; try (intros [? ?]; congruence); try (intros; congruence).
Qed.

Lemma requestPairingCode_forwards_witness :
  let body := Js.VObj [("phoneNumber"%string, Js.VStr "12025550108");
                       ("showNotification"%string, Js.VBool false)] in
  Api.CallRequestPairingCode "abc" (Js.VStr "12025550108") (Js.VBool false)
    ∈ (SessionEndpoints.requestPairingCode {[ "abc"%string := Js.VObj [] ]} "abc" body
         (Api.Ok (Js.VStr "ABCD-1234"))).1.
Proof.
  simpl.
  apply (proj1 (proj2 (requestPairingCode_forwards {[ "abc"%string := Js.VObj [] ]} "abc"
           (Js.VObj [("phoneNumber"%string, Js.VStr "12025550108");
                     ("showNotification"%string, Js.VBool false)])
           (Api.Ok (Js.VStr "ABCD-1234"))))).
  - split; reflexivity.
  - reflexivity.
  - discriminate.
Defined.

(** [localCallbackExample] answers exactly once and returns normally,
    unless the first of its calls that fails rejects with [null] or
    [undefined]: then the failure is logged, reading [error.message]
    throws out of the catch block and the request is left without an
    answer.  It answers success only after it has created the folder and
    appended the whole request body to the message log.  A QR code is
    printed only for a [qr] callback, from the QR text of its data; a
    [qr] callback without data is answered with status 500 before
    anything is printed or written. *)
Theorem localCallbackExample_logs_before_success (sessionFolderPath : string)
    (body : Js.value) (generate mkdir write : Api.result Js.value) :
  let '(acts, r) := Health.localCallbackExample sessionFolderPath body generate mkdir write in
  let data := Js.get body "data" in
  let isQr := Api.isString (Js.get body "dataType") "qr" in
  let awaited :=
    if Api.isNullish body then []
    else if isQr then (if Api.isNullish data then [] else [generate; mkdir; write])
    else [mkdir; write] in
  (if Api.caughtNullish awaited then Api.unanswered (acts, r) else Api.answered (acts, r)) ∧
  (Api.ResJson 200 (Api.success []) ∈ acts →
     ∃ pre, acts = pre ++ [Api.Mkdir sessionFolderPath;
                           Api.AppendFile (sessionFolderPath +:+ "/message_log.txt") body;
                           Api.ResJson 200 (Api.success [])]) ∧
  (∀ q, Api.QrGenerate q ∈ acts →
     isQr = true ∧ Api.isNullish data = false ∧ q = Js.get data "qr") ∧
  (isQr = true → Api.isNullish data = true →
     ∃ err, acts = [Api.LogFailure None "Failed to handle local callback"
                      (Api.errorObject err);
                    Api.ResJson 500 (Js.VObj [("success"%string, Js.VBool false);
                                              ("error"%string, Js.VStr err)])]).
Proof.
  unfold Health.localCallbackExample, Api.caughtNullish, Api.answered, Api.unanswered.
  run_handler.
  destruct (Api.isNullish body) eqn:Hb; simpl.
  { assert (Hd : Js.get body "dataType" = Js.VUndefined) by (by destruct body).
    rewrite Hd. simpl.
    split; [settled|]. split; [intros H; mem_cases H|].
    split; [intros q H; mem_cases H | done]. }
  destruct (Api.isString (Js.get body "dataType") "qr") eqn:Hq; simpl.
  - destruct (Api.isNullish (Js.get body "data")) eqn:Hn; simpl.
    + split; [settled|]. split; [intros H; mem_cases H|].
      split; [intros q H; mem_cases H | eauto].
    + destruct generate as [g|e]; simpl;
        [destruct mkdir as [m|e]; simpl; [destruct write as [x|e]; simpl|]|];
        try (destruct (Api.isNullish e) eqn:He; simpl);
        (split; [settled|]);
        (split; [intros H; mem_cases H; suffix_of|]);
        (split; [intros q H; mem_cases H; by injection H as <- | done]).
  - destruct mkdir as [m|e]; simpl; [destruct write as [x|e]; simpl|];
      try (destruct (Api.isNullish e) eqn:He; simpl);
      (split; [settled|]);
      (split; [intros H; mem_cases H; suffix_of|]);
      (split; [intros q H; mem_cases H | done]).
Qed.

Lemma localCallbackExample_logs_before_success_witness :
  let body := Js.VObj [("dataType"%string, Js.VStr "qr")] in
  ∃ err, (Health.localCallbackExample "./sessions" body (Api.Ok Js.VUndefined)
            (Api.Ok Js.VUndefined) (Api.Ok Js.VUndefined)).1
         = [Api.LogFailure None "Failed to handle local callback" (Api.errorObject err);
            Api.ResJson 500 (Js.VObj [("success"%string, Js.VBool false);
                                      ("error"%string, Js.VStr err)])].
Proof.
  cbv zeta.
  pose proof (localCallbackExample_logs_before_success "./sessions"
                (Js.VObj [("dataType"%string, Js.VStr "qr")]) (Api.Ok Js.VUndefined)
                (Api.Ok Js.VUndefined) (Api.Ok Js.VUndefined)) as H.
  destruct (Health.localCallbackExample "./sessions"
              (Js.VObj [("dataType"%string, Js.VStr "qr")]) (Api.Ok Js.VUndefined)
              (Api.Ok Js.VUndefined) (Api.Ok Js.VUndefined)) as [acts r].
  destruct H as (_ & _ & _ & H). exact (H eq_refl eq_refl).
Defined.

Section ContactFacts.

Variable sessions : gmap string Js.value.
Variable sessionId : string.

(** The contact endpoints ([getClassInfo], [block], [getAbout],
    [getChat], [getFormattedNumber], [getCountryCode],
    [getProfilePicUrl], [unblock], [getCommonGroups]) answer exactly once
    and return normally, unless the lookup of the contact or the call of
    its method rejects with [null] or [undefined]: then reading
    [error.message] throws out of the catch block and the request is left
    without an answer.  The contact is looked up only for a request with
    a body and a known session, and the contact's method is called only
    on a contact that was found.  An unknown session is answered with
    status 500 and the engine's TypeError, a contact not found with
    status 500 and [Contact not found], a call that rejects with any
    other value with status 500 and that value's [message].  The result
    of the method is returned as it is, except that [getProfilePicUrl]
    returns [null] for a result that is not truthy. *)
Theorem withContact_guarded (method : option string) (fallback : option Js.value)
    (body : Js.value) (lookup outcome : Api.result Js.value) :
  let '(acts, r) :=
    Contact.withContact method fallback sessions sessionId body lookup outcome in
  let client := Api.sessionsGet sessions sessionId in
  let error message := Api.ResJson 500 (Js.VObj [("success"%string, Js.VBool false);
                                                 ("error"%string, message)]) in
  let found contact :=
    Api.isNullish body = false ∧ Api.isNullish client = false ∧
    lookup = Api.Ok contact ∧ Js.truthy contact = true in
  let awaited :=
    if negb (Api.isNullish body) && negb (Api.isNullish client) then
      lookup :: match lookup, method with
                | Api.Ok contact, Some _ => if Js.truthy contact then [outcome] else []
                | _, _ => []
                end
    else [] in
  (if Api.caughtNullish awaited then Api.unanswered (acts, r) else Api.answered (acts, r)) ∧
  (∀ m, Api.CallContactMethod m ∈ acts → method = Some m ∧ ∃ contact, found contact) ∧
  (∀ s c, Api.CallGetContactById s c ∈ acts →
     Api.isNullish body = false ∧ Api.isNullish client = false) ∧
  (Api.isNullish body = false → sessions !! sessionId = None →
     acts = [error (Js.VStr "Cannot read properties of undefined (reading 'getContactById')")]) ∧
  (∀ contact, Api.isNullish body = false → Api.isNullish client = false →
     lookup = Api.Ok contact → Js.truthy contact = false →
     acts = [Api.CallGetContactById sessionId (Js.get body "contactId");
             error (Js.VStr "Contact not found")]) ∧
  (∀ contact, found contact → method = None →
     acts = [Api.CallGetContactById sessionId (Js.get body "contactId");
             Api.ResJson 200 (Api.success [("contact"%string, contact)])]) ∧
  (∀ contact m result, found contact → method = Some m → outcome = Api.Ok result →
     acts = [Api.CallGetContactById sessionId (Js.get body "contactId");
             Api.CallContactMethod m;
             Api.ResJson 200
               (Api.success [("result"%string,
                              match fallback with
                              | Some d => if Js.truthy result then result else d
                              | None => result
                              end)])]) ∧
  (∀ contact m thrown, found contact → method = Some m → outcome = Api.Raise thrown →
     Api.isNullish thrown = false →
     acts = [Api.CallGetContactById sessionId (Js.get body "contactId");
             Api.CallContactMethod m; error (Js.get thrown "message")]) ∧
  (∀ thrown, Api.isNullish body = false → Api.isNullish client = false →
     lookup = Api.Raise thrown → Api.isNullish thrown = false →
     acts = [Api.CallGetContactById sessionId (Js.get body "contactId");
             error (Js.get thrown "message")]).
Proof.
  unfold Contact.withContact, Js.or, Api.caughtNullish, Api.answered, Api.unanswered.
  run_handler.
  destruct (Api.isNullish body) eqn:Hb; simpl.
  { split; [settled|].
    split; [intros m H; mem_cases H|]. split; [intros s c H; mem_cases H|].
    repeat split; try (intros ? (? & _)); try (intros ? ? ? (? & _)); intros; congruence. }
  destruct (Api.isNullish (Api.sessionsGet sessions sessionId)) eqn:Hc; simpl.
  { split; [settled|].
    split; [intros m H; mem_cases H|]. split; [intros s c H; mem_cases H|].
    split; [intros _ Hn; unfold Api.sessionsGet; by rewrite Hn|].
    repeat split; try (intros ? (_ & ? & _)); try (intros ? ? ? (_ & ? & _));
      intros; congruence. }
  assert (Hsome : sessions !! sessionId = None → False).
  { intros Hn. unfold Api.sessionsGet in Hc. rewrite Hn in Hc. done. }
  destruct lookup as [contact|e]; simpl.
  - destruct (Js.truthy contact) eqn:Ht; simpl.
    + destruct fallback as [d|];
        (destruct method as [m0|]; simpl;
           [destruct outcome as [result|e]; simpl;
              [|destruct (Api.isNullish e) eqn:He; simpl]|]);
        (split; [settled|]);
        (split; [intros m H; mem_cases H; injection H as ->; (split; first done);
                 by exists contact|]);
        (split; [intros s c H; mem_cases H; done|]);
        (split; [intros; exfalso; auto|]);
        (split; [intros; congruence|]);
        (split; [intros c (_ & _ & [= <-] & _) ?; congruence|]);
        (split; [intros c m res (_ & _ & [= <-] & _) ? ?; by simplify_eq|]);
        (split; [intros c m res (_ & _ & [= <-] & _) ? ? ?; simplify_eq;
                 first [done | congruence]|]);
        intros; congruence.
    + split; [destruct method; settled|].
      split; [intros m H; mem_cases H|]. split; [intros s c H; mem_cases H; done|].
      split; [intros; exfalso; auto|].
      split; [done|].
      split; [intros c (_ & _ & [= <-] & ?); congruence|].
      split; [intros c m res (_ & _ & [= <-] & ?); congruence|].
      split; [intros c m res (_ & _ & [= <-] & ?); congruence|].
      intros; congruence.
  - destruct (Api.isNullish e) eqn:He; simpl;
      (split; [settled|]);
      (split; [intros m H; mem_cases H|]); (split; [intros s c H; mem_cases H; done|]);
      (split; [intros; exfalso; auto|]);
      (split; [intros; congruence|]);
      (split; [intros c (_ & _ & ? & _); congruence|]);
      (split; [intros c m res (_ & _ & ? & _); congruence|]);
      (split; [intros c m res (_ & _ & ? & _); congruence|]);
      intros; simplify_eq; first [done | congruence].
Qed.

End ContactFacts.

Lemma withContact_guarded_witness :
  (Contact.block ∅ "abc" (Js.VObj [("contactId"%string, Js.VStr "1@c.us")])
     (Api.Ok Js.VNull) (Api.Ok Js.VUndefined)).1
    = [Api.ResJson 500
         (Js.VObj [("success"%string, Js.VBool false);
                   ("error"%string,
                    Js.VStr "Cannot read properties of undefined (reading 'getContactById')")])].
Proof.
  pose proof (withContact_guarded ∅ "abc" (Some "block"%string) None
                (Js.VObj [("contactId"%string, Js.VStr "1@c.us")])
                (Api.Ok Js.VNull) (Api.Ok Js.VUndefined)) as H.
  unfold Contact.block.
  destruct (Contact.withContact (Some "block"%string) None ∅ "abc"
              (Js.VObj [("contactId"%string, Js.VStr "1@c.us")])
              (Api.Ok Js.VNull) (Api.Ok Js.VUndefined)) as [acts r].
  destruct H as (_ & _ & _ & H & _). exact (H eq_refl eq_refl).
Defined.

(** ** Contact ids of the message controller *)

Lemma length_append s1 s2 :
  String.length (s1 +:+ s2) = (String.length s1 + String.length s2)%nat.
Proof. induction s1 as [|c s1 IH]; simpl; [done|]. by rewrite <- IH. Qed.

Lemma substring_all s : String.substring 0 (String.length s) s = s.
Proof. induction s as [|c s IH]; simpl; [done|]. by rewrite IH. Qed.

Lemma substring_append s1 s2 :
  String.substring (String.length s1) (String.length s2) (s1 +:+ s2) = s2.
Proof. induction s1 as [|c s1 IH]; simpl; [apply substring_all | done]. Qed.

Lemma endsWith_append s suffix : Api.endsWith (s +:+ suffix) suffix = true.
Proof.
  unfold Api.endsWith. rewrite length_append.
  apply andb_true_iff. split; [apply Nat.leb_le; lia|].
  replace (String.length s + String.length suffix - String.length suffix)%nat
    with (String.length s) by lia.
  rewrite substring_append. apply String.eqb_refl.
Qed.

(** The contact id that [sendMessage] and [reply] look up always ends
    with [@c.us]: an id that already does is used as it is, any other
    gets the suffix appended; normalising twice changes nothing more. *)
Theorem contactId_normalised (c : string) :
  Api.endsWith (Message.contactId c) "@c.us" = true ∧
  Message.contactId (Message.contactId c) = Message.contactId c ∧
  (Api.endsWith c "@c.us" = true → Message.contactId c = c) ∧
  (Api.endsWith c "@c.us" = false → Message.contactId c = c +:+ "@c.us").
Proof.
  assert (He : Api.endsWith (Message.contactId c) "@c.us" = true).
  { unfold Message.contactId. destruct (Api.endsWith c "@c.us") eqn:H; [done|].
    apply endsWith_append. }
  split; [done|]. split.
  - unfold Message.contactId at 1. by rewrite He.
  - unfold Message.contactId. split; by intros ->.
Qed.

Lemma contactId_normalised_witness :
  Message.contactId "6281288888889" = "6281288888889@c.us"%string.
Proof.
  apply (contactId_normalised "6281288888889"). reflexivity.
Defined.

(** ** The further theorems at concrete inputs *)

Lemma handleUpgrade_then_broadcast_witness :
  ∃ cs, trace (WebSocket.triggerWebSocket "abc" "qr" (Js.VStr "code")
                 (WebSocket.handleUpgrade Sample.reqAbc 7%nat Sample.hubAbc).1)
          = trace (WebSocket.handleUpgrade Sample.reqAbc 7%nat Sample.hubAbc).1
            ++ map (fun ws => WsSend ws {| env_dataType := "qr"; env_data := Js.VStr "code";
                                           env_sessionId := "abc" |}) cs ∧
        7%nat ∈ cs.
Proof.
  destruct (handleUpgrade_then_broadcast Sample.reqAbc "/ws/abc" 7%nat "abc" "qr"
              (Js.VStr "code") {| wss_id := 0%nat; clients := [4%nat; 5%nat] |}
              Sample.hubAbc)
    as (cs & Ht & Hin & _).
  - reflexivity.
  - reflexivity.
  - split; [reflexivity|]. exists EmptyString. split; [reflexivity | by left].
  - reflexivity.
  - exists cs. split; [exact Ht | exact Hin].
Defined.

Lemma terminateWebSocketServer_then_silent_witness :
  let w1 := (WebSocket.terminateWebSocketServer "abc" WebSocket.CloseConfirmed
               Sample.hubAbc).1 in
  WebSocket.handleUpgrade Sample.reqAbc 7%nat w1
    = (emit (SocketDestroy 7%nat) w1, WebSocket.Returned).
Proof.
  simpl.
  apply (proj2 (terminateWebSocketServer_then_silent "abc" WebSocket.CloseConfirmed
                  Sample.hubAbc) Sample.reqAbc "/ws/abc"%string 7%nat).
  - reflexivity.
  - split; [reflexivity|]. exists EmptyString. split; [reflexivity | by left].
Defined.

Lemma initialWorld_wellFormed : Hub.wellFormed initialWorld.
Proof. split; intros *; simpl; rewrite lookup_empty; done. Qed.

Lemma terminate_then_init_fresh_witness :
  wssMap (WebSocket.initWebSocketServer Sample.cfgMessageOff "abc"
            (WebSocket.terminateWebSocketServer "abc" WebSocket.CloseConfirmed
               (WebSocket.initWebSocketServer Sample.cfgMessageOff "abc" initialWorld)).1)
    !! "abc"%string = Some {| wss_id := 1%nat; clients := [] |}.
Proof.
  apply (terminate_then_init_fresh Sample.cfgMessageOff "abc" WebSocket.CloseConfirmed
           (WebSocket.initWebSocketServer Sample.cfgMessageOff "abc" initialWorld)).
  - reflexivity.
  - apply initWebSocketServer_wellFormed, initialWorld_wellFormed.
Defined.

Lemma init_then_terminate_restores_witness :
  wssMap (WebSocket.terminateWebSocketServer "abc" WebSocket.CloseNotYet
            (WebSocket.initWebSocketServer Sample.cfgMessageOff "abc" initialWorld)).1
    = wssMap initialWorld.
Proof.
  apply (init_then_terminate_restores Sample.cfgMessageOff "abc" WebSocket.CloseNotYet
           initialWorld).
  reflexivity.
Defined.

Lemma hubRun_wellFormed_witness :
  Hub.wellFormed
    (Server.hubRun Sample.cfgMessageOff
       [Server.CallInit "abc"; Server.CallUpgrade Sample.reqAbc 7%nat;
        Server.CallUpgrade Sample.reqAbc 7%nat; Server.CallInit "xyz";
        Server.CallUpgrade Sample.reqAbcRefused 8%nat;
        Server.CallUpgrade Sample.reqBadTarget 9%nat;
        Server.CallTerminate "abc" WebSocket.CloseConfirmed; Server.CallInit "abc"]
       initialWorld).
Proof.
  apply (hubRun_wellFormed Sample.cfgMessageOff). apply initialWorld_wellFormed.
Defined.

Lemma hubRun_entries_from_init_witness :
  is_Some (wssMap (Server.hubRun Sample.cfgMessageOff
                     [Server.CallUpgrade Sample.reqAbc 7%nat; Server.CallInit "abc"]
                     initialWorld) !! "abc"%string) ∧
  (is_Some (wssMap initialWorld !! "abc"%string) ∨
   (existsb (Hub.isInit "abc")
      [Server.CallUpgrade Sample.reqAbc 7%nat; Server.CallInit "abc"] = true ∧
    enableWebSocket Sample.cfgMessageOff = true)).
Proof.
  assert (H : is_Some (wssMap (Server.hubRun Sample.cfgMessageOff
                                 [Server.CallUpgrade Sample.reqAbc 7%nat;
                                  Server.CallInit "abc"]
                                 initialWorld) !! "abc"%string))
    by (eexists; reflexivity).
  split; [exact H|].
  exact (hubRun_entries_from_init Sample.cfgMessageOff _ _ _ H).
Defined.

Lemma handleUpgrade_ignores_trailing_segments_witness :
  WebSocket.handleUpgrade Sample.reqAbc 7%nat Sample.hubAbc
    = WebSocket.handleUpgrade (Sample.reqTo "/ws/abc/any/thing") 7%nat Sample.hubAbc.
Proof.
  apply (handleUpgrade_ignores_trailing_segments Sample.reqAbc
           (Sample.reqTo "/ws/abc/any/thing") "/ws/abc" "/ws/abc/any/thing" "abc").
  - reflexivity.
  - reflexivity.
  - reflexivity.
  - split; [reflexivity|]. exists EmptyString. split; [reflexivity | by left].
  - split; [reflexivity|]. exists "/any/thing"%string. split; [reflexivity | right; eauto].
Defined.

Lemma handleUpgrade_preserves_entries_witness :
  wssMap (WebSocket.handleUpgrade Sample.reqAbc 7%nat Sample.hubAbc).1 !! "xyz"%string
    = wssMap Sample.hubAbc !! "xyz"%string.
Proof.
  apply (proj1 (proj2 (handleUpgrade_preserves_entries Sample.reqAbc 7%nat Sample.hubAbc))).
  intros path [= <-] [_ H]%wsPath_extract. vm_compute in H. discriminate H.
Defined.

Lemma sessionQrCode_image_agree_witness :
  SessionEndpoints.sessionQrCode ∅ "abc"
    = ([Api.ResJson 200 (Api.failure "session_not_found")], Api.Ok tt).
Proof.
  apply (sessionQrCode_image_agree ∅ "abc"). reflexivity.
Defined.
